(** * Image Combination API (src/main.py): a shallow embedding

    The request handler [combine_images] and its helpers are modelled as pure
    functions over an environment [Env] that collects what the program obtains
    from outside: the HTTP client, the image decoder, font files and the text
    measurement of the font engine.  Pillow images are modelled as terms that
    record how they were built ([Bitmap]): [Image.new] is [New], [paste] is
    [Pasted], [ImageDraw.rectangle] is [Rectangle] and so on; the in-place
    mutation of the canvas becomes threading the term through the loop.
    Exceptions are the [Result] monad: [RErr] is an [HTTPException] (status and
    detail), [RCrash] any other exception, which the framework answers with a
    server error. *)

From Stdlib Require Import ZArith QArith Qround Qminmax List String Ascii Bool Lia.
Import ListNotations.
Set Warnings "-register-all".
Open Scope string_scope.
Open Scope list_scope.
Open Scope Z_scope.

(** ** Results and exceptions *)

Inductive Result (A : Type) : Type :=
| ROk (a : A)
| RErr (status : Z) (detail : string)
| RCrash (exn : string).
Arguments ROk {A} a.
Arguments RErr {A} status detail.
Arguments RCrash {A} exn.

Definition bind {A B : Type} (r : Result A) (k : A -> Result B) : Result B :=
  match r with
  | ROk a => k a
  | RErr s d => RErr s d
  | RCrash e => RCrash e
  end.

Notation "x <- r ;; k" := (bind r (fun x => k))
  (at level 61, r at next level, right associativity).

(** ** Pillow images *)

Inductive Mode := RGB | RGBA.
Inductive Color := White | Black | Transparent.
Inductive Resample := LANCZOS | BICUBIC.

(** [ImageFont.truetype(path, size)] or [ImageFont.load_default()]. *)
Inductive Font := TrueType (path : string) (size : Z) | DefaultFont.

Inductive Bitmap :=
| New (m : Mode) (w h : Z) (c : Color)          (* Image.new(mode, (w, h), c) *)
| Decoded (data : list Byte.byte) (w h : Z)     (* Image.open(BytesIO(data)); load() *)
| Convert (m : Mode) (b : Bitmap)               (* b.convert(m) *)
| Resized (b : Bitmap) (w h : Z) (r : Resample) (* b.resize((w, h), resample=r) *)
| Band (k : nat) (b : Bitmap)                   (* b.split()[k] *)
| Pasted (dst src : Bitmap) (x y : Z) (mask : option Bitmap)
                                                (* dst.paste(src, (x, y), mask) *)
| Rectangle (dst : Bitmap) (x0 y0 x1 y1 : Z) (outline : Color)
                                                (* draw.rectangle([x0, y0, x1, y1], outline=...) *)
| TextDrawn (dst : Bitmap) (x y : Z) (t : list ascii) (fill : Color) (f : Font).
                                                (* draw.text((x, y), t, fill=..., font=f) *)

(** [Image.size] *)
Fixpoint size (b : Bitmap) : Z * Z :=
  match b with
  | New _ w h _ => (w, h)
  | Decoded _ w h => (w, h)
  | Convert _ b => size b
  | Resized _ w h _ => (w, h)
  | Band _ b => size b
  | Pasted dst _ _ _ _ => size dst
  | Rectangle dst _ _ _ _ _ => size dst
  | TextDrawn dst _ _ _ _ _ => size dst
  end.

Definition width (b : Bitmap) : Z := fst (size b).
Definition height (b : Bitmap) : Z := snd (size b).

(** [Image.new]: Pillow refuses negative sizes with a [ValueError]. *)
Definition pil_new (m : Mode) (w h : Z) (c : Color) : Result Bitmap :=
  if (w <? 0) || (h <? 0) then RCrash "ValueError: Width and height must be >= 0"
  else ROk (New m w h c).

(** [Image.resize]: the same size gives a copy; a size below 1 is refused by
    the resampling core with a [ValueError]. *)
Definition pil_resize (b : Bitmap) (w h : Z) (r : Resample) : Result Bitmap :=
  let '(bw, bh) := size b in
  if (bw =? w) && (bh =? h) then ROk b
  else if (w <? 1) || (h <? 1) then RCrash "ValueError: height and width must be > 0"
  else ROk (Resized b w h r).

(** Python's [round] on a number (round half to even). [contain] below takes
    Pillow's float quotients as exact rationals; [finalize] rounds its
    quotients and products to doubles with [fl]. *)
Definition py_round_div (n d : Z) : Z :=
  let q := n / d in
  let r := n mod d in
  if 2 * r <? d then q
  else if d <? 2 * r then q + 1
  else if Z.even q then q else q + 1.

Definition py_round (x : Q) : Z := py_round_div (Qnum x) (Zpos (Qden x)).

(** Python's [int] on a number: truncation toward zero. *)
Definition py_int (x : Q) : Z :=
  if Qle_bool 0 x then Qfloor x else Qceiling x.

(** Python's [a / b] on ints; division by zero raises. *)
Definition py_div (a b : Z) : Result Q :=
  if b =? 0 then RCrash "ZeroDivisionError" else ROk (inject_Z a / inject_Z b)%Q.

(** Python floats are IEEE 754 binary64, rounded to nearest with ties to
    even. [fl_pos n d] is the double nearest to n/d for n, d > 0: the
    quotient is scaled by 2^k so that its integer part has 53 bits
    (2^52 <= n*2^k/d < 2^53) and rounded there. This is the normal range of
    the format (2^-1022 to 2^1024), in which every quantity of [finalize]
    lies for image sides below 2^1000. *)
Definition fl_scaled (n d k : Z) : Z * Z :=
  if 0 <=? k then (n * 2 ^ k, d) else (n, d * 2 ^ (- k)).

Definition fl_pos (n d : Z) : Q :=
  let k0 := 52 - (Z.log2 n - Z.log2 d) in
  let k := let '(a, b) := fl_scaled n d k0 in
           if a / b <? 2 ^ 52 then k0 + 1 else k0 in
  let '(a, b) := fl_scaled n d k in
  let m := py_round_div a b in
  if 0 <=? k then (inject_Z m / inject_Z (2 ^ k))%Q else inject_Z (m * 2 ^ (- k)).

(** [fl x]: the double nearest to the rational [x]. *)
Definition fl (x : Q) : Q :=
  match Qnum x with
  | Z0 => 0%Q
  | Zpos p => fl_pos (Zpos p) (Zpos (Qden x))
  | Zneg p => (- fl_pos (Zpos p) (Zpos (Qden x)))%Q
  end.

(** Python's [a / b] on ints with a float result: CPython divides the ints
    exactly and rounds the quotient once to a double; division by zero
    raises. *)
Definition py_truediv (a b : Z) : Result Q :=
  if b =? 0 then RCrash "ZeroDivisionError" else ROk (fl (inject_Z a / inject_Z b)%Q).

(** Python's [n * x] for an int [n] and a float [x]: [n] is converted to a
    double, then the product is rounded to a double. *)
Definition py_int_mul_float (n : Z) (x : Q) : Q := fl (fl (inject_Z n) * x)%Q.

(** [ImageOps.contain(image, size)] (Pillow, default method BICUBIC):
<<
    im_ratio = image.width / image.height
    dest_ratio = size[0] / size[1]
    if im_ratio != dest_ratio:
        if im_ratio > dest_ratio:
            new_height = round(image.height / image.width * size[0])
            if new_height != size[1]:
                size = (size[0], new_height)
        else:
            new_width = round(image.width / image.height * size[1])
            if new_width != size[0]:
                size = (new_width, size[1])
    return image.resize(size, resample=method)
>> *)
Definition contain (image : Bitmap) (sw sh : Z) : Result Bitmap :=
  let '(w, h) := size image in
  im_ratio <- py_div w h ;;
  dest_ratio <- py_div sw sh ;;
  new_size <-
    match Qcompare im_ratio dest_ratio with
    | Eq => ROk (sw, sh)
    | Gt =>
        r <- py_div h w ;;
        let new_height := py_round (r * inject_Z sw)%Q in
        ROk (if negb (new_height =? sh) then (sw, new_height) else (sw, sh))
    | Lt =>
        r <- py_div w h ;;
        let new_width := py_round (r * inject_Z sh)%Q in
        ROk (if negb (new_width =? sw) then (new_width, sh) else (sw, sh))
    end ;;
  pil_resize image (fst new_size) (snd new_size) BICUBIC.

(** ** Strings: Python's [str.strip()] *)

(** [str.isspace] on the ASCII range: \t \n \v \f \r, \x1c .. \x1f and space. *)
Definition is_space (a : ascii) : bool :=
  let n := nat_of_ascii a in
  ((9 <=? n) && (n <=? 13))%nat || ((28 <=? n) && (n <=? 32))%nat.

Fixpoint lstrip (s : list ascii) : list ascii :=
  match s with
  | [] => []
  | c :: rest => if is_space c then lstrip rest else s
  end.

Definition rstrip (s : list ascii) : list ascii := rev (lstrip (rev s)).

Definition strip (s : list ascii) : list ascii := rstrip (lstrip s).

(** ** The environment of a request *)

(** What [await client.get(url)] yields: a response with its status and body,
    or an [httpx] transport error (connection failure, timeout, ...). *)
Inductive HttpOutcome :=
| HttpTransportError
| HttpResponse (status : Z) (body : list Byte.byte).

(** What [Image.open(BytesIO(body)); image.load()] does: an image of the given
    size, an [UnidentifiedImageError] / [OSError], or another exception. *)
Inductive OpenOutcome :=
| Opened (w h : Z)
| OpenOSError
| OpenRaised (exn : string).

Record Env := mkEnv {
  http_get : string -> HttpOutcome;
  image_open : list Byte.byte -> OpenOutcome;
  truetype_loads : string -> Z -> bool;         (* ImageFont.truetype succeeds *)
  textbbox : Font -> list ascii -> Z * Z * Z * Z; (* draw.textbbox((0, 0), text, font) *)
  parse_http_url : string -> option string;     (* pydantic AnyHttpUrl, then str() *)
  base_dir : string                             (* Path(__file__).resolve().parent *)
}.

Definition TARGET_WIDTH : Z := 2560.
Definition TARGET_HEIGHT : Z := 1408.

(** [fetch_image] *)
Definition fetch_image (e : Env) (url : string) : Result Bitmap :=
  match http_get e url with
  | HttpTransportError => RErr 400 (String.append "Failed to download image: " url)
  | HttpResponse status body =>
      if negb ((200 <=? status) && (status <? 300))   (* raise_for_status *)
      then RErr 400 (String.append "Failed to download image: " url)
      else match image_open e body with
           | OpenOSError => RErr 400 (String.append "Invalid image content at: " url)
           | OpenRaised exn => RCrash exn
           | Opened w h => ROk (Convert RGBA (Decoded body w h))
           end
  end.

(** [get_font] *)
Definition font_candidates (e : Env) : list string :=
  [ String.append (base_dir e) "/fonts/DejaVuSans-Bold.ttf";
    String.append (base_dir e) "/fonts/DejaVuSans.ttf";
    "DejaVuSans-Bold.ttf";
    "DejaVuSans.ttf" ].

Fixpoint first_font (e : Env) (sz : Z) (candidates : list string) : Font :=
  match candidates with
  | [] => DefaultFont
  | c :: rest => if truetype_loads e c sz then TrueType c sz else first_font e sz rest
  end.

Definition get_font (e : Env) (sz : Z) : Font := first_font e sz (font_candidates e).

(** [render_text_image] *)
Definition render_text_image (e : Env) (text0 : list ascii) (font : Font)
  : Result (Bitmap * Z * Z) :=
  let text := strip text0 in
  match text with
  | [] => ROk (New RGBA 1 1 Transparent, 1, 1)
  | _ :: _ =>
      let '(x0, y0, x1, y1) := textbbox e font text in
      let text_width := x1 - x0 in
      let text_height := y1 - y0 in
      text_image <- pil_new RGBA text_width text_height Transparent ;;
      ROk (TextDrawn text_image (- x0) (- y0) text Black font, text_width, text_height)
  end.

(** ** Request model *)

(** The JSON items as they arrive, and [ImageTextItem] once pydantic accepted
    them ([imageUrl: AnyHttpUrl], [text: str = Field(..., min_length=1)]). *)
Record RawItem := mkRawItem { raw_url : string; raw_text : list ascii }.
Record Item := mkItem { imageUrl : string; text : list ascii }.

Definition validate_item (e : Env) (it : RawItem) : option Item :=
  match parse_http_url e (raw_url it) with
  | Some u => if (1 <=? List.length (raw_text it))%nat then Some (mkItem u (raw_text it)) else None
  | None => None
  end.

Fixpoint validate_request (e : Env) (raw : list RawItem) : option (list Item) :=
  match raw with
  | [] => Some []
  | it :: rest =>
      match validate_item e it, validate_request e rest with
      | Some i, Some is => Some (i :: is)
      | _, _ => None
      end
  end.

(** ** [combine_images] *)

Definition padding : Z := 24.
Definition text_to_image_spacing : Z := 8.
Definition border_width : nat := 2.
Definition max_image_edge : Z := 1024.

(** The dict appended to [blocks]. *)
Record Block := mkBlock {
  blk_image : Bitmap;
  blk_text_image : Bitmap;
  blk_text_width : Z;
  blk_text_height : Z }.

(** One iteration of the download loop (lines 100-113). *)
Definition process_item (e : Env) (font : Font) (it : Item) : Result Block :=
  image <- fetch_image e (imageUrl it) ;;
  resized <- contain image max_image_edge max_image_edge ;;
  let t := strip (text it) in
  r <- render_text_image e t font ;;
  let '(text_image, text_width, text_height) := r in
  ROk (mkBlock resized text_image text_width text_height).

Fixpoint fetch_blocks (e : Env) (font : Font) (items : list Item) : Result (list Block) :=
  match items with
  | [] => ROk []
  | it :: rest =>
      b <- process_item e font it ;;
      bs <- fetch_blocks e font rest ;;
      ROk (b :: bs)
  end.

(** Python's [max] over a generator. *)
Definition py_max (l : list Z) : Result Z :=
  match l with
  | [] => RCrash "ValueError: max() arg is an empty sequence"
  | x :: rest => ROk (fold_left Z.max rest x)
  end.

(** [(cols, rows)] by [num_items]. *)
Definition grid_shape (num_items : nat) : Z * Z :=
  if (num_items =? 1)%nat then (1, 1)
  else if (num_items =? 2)%nat then (2, 1)
  else (2, 2).

(** [for i in range(border_width): draw.rectangle(...)] *)
Definition draw_border (x_offset y_offset cell_width cell_height : Z) (canvas : Bitmap)
  : Bitmap :=
  fold_left
    (fun c i =>
       let i := Z.of_nat i in
       Rectangle c (x_offset + i) (y_offset + i)
         (x_offset + cell_width - 1 - i) (y_offset + cell_height - 1 - i) Black)
    (seq 0 border_width) canvas.

(** The body of [for index, block in enumerate(blocks)] (lines 137-172). *)
Definition place_block (cell_width cell_height : Z) (index : nat) (b : Block)
  (canvas : Bitmap) : Bitmap :=
  let row := Z.of_nat index / 2 in
  let col := Z.of_nat index mod 2 in
  let x_offset := col * cell_width in
  let y_offset := row * cell_height in
  let block_width := Z.max (width (blk_image b)) (blk_text_width b) + 2 * padding in
  let block_height :=
    blk_text_height b + text_to_image_spacing + height (blk_image b) + 2 * padding in
  let horizontal_shift := (cell_width - block_width) / 2 in
  let vertical_shift := (cell_height - block_height) / 2 in
  let block_left := x_offset + horizontal_shift in
  let block_top := y_offset + vertical_shift in
  let text_x := block_left + (block_width - blk_text_width b) / 2 in
  let text_y := block_top + padding in
  let text_image := blk_text_image b in
  let canvas := Pasted canvas text_image text_x text_y (Some (Band 3 text_image)) in
  let image_x := block_left + (block_width - width (blk_image b)) / 2 in
  let image_y := text_y + blk_text_height b + text_to_image_spacing in
  let canvas := Pasted canvas (blk_image b) image_x image_y (Some (blk_image b)) in
  draw_border x_offset y_offset cell_width cell_height canvas.

Fixpoint place_blocks (cell_width cell_height : Z) (index : nat) (bs : list Block)
  (canvas : Bitmap) : Bitmap :=
  match bs with
  | [] => canvas
  | b :: rest =>
      place_blocks cell_width cell_height (S index) rest
        (place_block cell_width cell_height index b canvas)
  end.

(** Lines 115-172: measuring, the grid and the composed canvas. *)
Definition compose_grid (blocks : list Block) : Result Bitmap :=
  max_content_width <-
    py_max (map (fun b => Z.max (width (blk_image b)) (blk_text_width b)) blocks) ;;
  max_image_height <- py_max (map (fun b => height (blk_image b)) blocks) ;;
  max_text_height <- py_max (map blk_text_height blocks) ;;
  let cell_width := max_content_width + 2 * padding in
  let cell_height :=
    max_image_height + max_text_height + text_to_image_spacing + 2 * padding in
  let '(cols, rows) := grid_shape (List.length blocks) in
  canvas <- pil_new RGB (cell_width * cols) (cell_height * rows) White ;;
  ROk (place_blocks cell_width cell_height 0 blocks canvas).

(** Lines 174-183: fitting the canvas to the target size. *)
Definition finalize (canvas : Bitmap) : Result Bitmap :=
  let '(cw, ch) := size canvas in
  if (cw =? TARGET_WIDTH) && (ch =? TARGET_HEIGHT) then ROk canvas
  else
    sx <- py_truediv TARGET_WIDTH cw ;;
    sy <- py_truediv TARGET_HEIGHT ch ;;
    let scale_factor := Qmin sx sy in
    let scaled_width :=
      Z.max 1 (Z.min TARGET_WIDTH (py_int (py_int_mul_float cw scale_factor))) in
    let scaled_height :=
      Z.max 1 (Z.min TARGET_HEIGHT (py_int (py_int_mul_float ch scale_factor))) in
    scaled_canvas <- pil_resize canvas scaled_width scaled_height LANCZOS ;;
    final_canvas <- pil_new RGB TARGET_WIDTH TARGET_HEIGHT White ;;
    let paste_x := (TARGET_WIDTH - scaled_width) / 2 in
    let paste_y := (TARGET_HEIGHT - scaled_height) / 2 in
    ROk (Pasted final_canvas scaled_canvas paste_x paste_y None).

(** [canvas.save(output, format="PNG", optimize=True, compress_level=6)]:
    the PNG file is determined by the image and the encoder options. *)
Inductive PngFile := PngSave (b : Bitmap) (optimize : bool) (compress_level : Z).

Record Response := mkResponse { media_type : string; content : PngFile }.

Definition png_image (p : PngFile) : Bitmap := let '(PngSave b _ _) := p in b.

Definition combine_images (e : Env) (items : list Item) : Result Response :=
  if negb ((1 <=? List.length items) && (List.length items <=? 4))%nat
  then RErr 400 "Provide between 1 and 4 items."
  else
    let font := get_font e 60 in
    blocks <- fetch_blocks e font items ;;
    canvas <- compose_grid blocks ;;
    final <- finalize canvas ;;
    ROk (mkResponse "image/png" (PngSave final true 6)).

(** [POST /combine]: FastAPI validates the body against [CombineRequest]
    before calling the handler and answers a validation failure with its
    default status 422. The body of that response is FastAPI's list of
    validation errors, which the model does not represent: the detail
    "Unprocessable Entity" only stands for it. *)
Definition endpoint (e : Env) (raw : list RawItem) : Result Response :=
  match validate_request e raw with
  | None => RErr 422 "Unprocessable Entity"
  | Some items => combine_images e items
  end.

(** ** A concrete environment, used to run the model on sample requests *)

Definition demo_http_get (u : string) : HttpOutcome :=
  if String.eqb u "http://img.test/red.png" then HttpResponse 200 [Byte.x01]
  else if String.eqb u "http://img.test/wide.png" then HttpResponse 200 [Byte.x02]
  else if String.eqb u "http://img.test/page.html" then HttpResponse 200 [Byte.x3c]
  else if String.eqb u "http://img.test/missing.png" then HttpResponse 404 []
  else HttpTransportError.

Definition demo_image_open (body : list Byte.byte) : OpenOutcome :=
  match body with
  | [Byte.x01] => Opened 200 100
  | [Byte.x02] => Opened 4096 1
  | _ => OpenOSError
  end.

Definition demo_env : Env := {|
  http_get := demo_http_get;
  image_open := demo_image_open;
  truetype_loads := fun p _ => String.eqb p "DejaVuSans.ttf";
  textbbox := fun _ t => (2, 14, 2 + 34 * Z.of_nat (List.length t), 58);
  parse_http_url := fun s =>
    if String.prefix "http://" s || String.prefix "https://" s then Some s else None;
  base_dir := "/app" |}.

Definition hi : list ascii := list_ascii_of_string "Hi".
Definition red_item : RawItem := mkRawItem "http://img.test/red.png" hi.

(** ** Reading a composed image back

    The drawing operations applied to a canvas, in the order they were made. *)

Fixpoint base (b : Bitmap) : Bitmap :=
  match b with
  | Pasted dst _ _ _ _ => base dst
  | Rectangle dst _ _ _ _ _ => base dst
  | TextDrawn dst _ _ _ _ _ => base dst
  | _ => b
  end.

Fixpoint pastes (b : Bitmap) : list (Bitmap * Z * Z) :=
  match b with
  | Pasted dst src x y _ => pastes dst ++ [(src, x, y)]
  | Rectangle dst _ _ _ _ _ => pastes dst
  | TextDrawn dst _ _ _ _ _ => pastes dst
  | _ => []
  end.

Fixpoint rects (b : Bitmap) : list (Z * Z * Z * Z * Color) :=
  match b with
  | Pasted dst _ _ _ _ => rects dst
  | Rectangle dst x0 y0 x1 y1 c => rects dst ++ [(x0, y0, x1, y1, c)]
  | TextDrawn dst _ _ _ _ _ => rects dst
  | _ => []
  end.

(** The top-left corner of the grid cell of block [index]. *)
Definition cell_origin (cell_width cell_height : Z) (index : nat) : Z * Z :=
  ((Z.of_nat index mod 2) * cell_width, (Z.of_nat index / 2) * cell_height).

(** The [j]-th outline of a cell, inset by [j] from its edge. *)
Definition cell_border (cell_width cell_height : Z) (index j : nat)
  : Z * Z * Z * Z * Color :=
  let '(x, y) := cell_origin cell_width cell_height index in
  let j := Z.of_nat j in
  (x + j, y + j, x + cell_width - 1 - j, y + cell_height - 1 - j, Black).

(** A list of three equal blocks: a 200x100 image contained to 1024x512 under
    a 68x44 caption. *)
Definition demo_block : Block :=
  mkBlock (Resized (Convert RGBA (Decoded [Byte.x01] 200 100)) 1024 512 BICUBIC)
    (New RGBA 68 44 Transparent) 68 44.
Definition demo_blocks3 : list Block := [demo_block; demo_block; demo_block].

Definition demo_canvas3 : Bitmap :=
  match compose_grid demo_blocks3 with
  | ROk c => c
  | _ => New RGB 0 0 White
  end.

(** How the download of [url] fails, if it does: a transport error or a
    non-2xx status, or else a body that [Image.open] / [load] rejects with an
    [UnidentifiedImageError] or [OSError]. *)
Definition download_failed (e : Env) (url : string) : Prop :=
  match http_get e url with
  | HttpTransportError => True
  | HttpResponse status _ => ~ (200 <= status < 300)
  end.

Definition decode_failed (e : Env) (url : string) : Prop :=
  exists status body,
    http_get e url = HttpResponse status body /\ (200 <= status < 300) /\
    image_open e body = OpenOSError.

(** Two items that request the same URL with captions equal after [strip]. *)
Definition item_equiv (i1 i2 : Item) : Prop :=
  imageUrl i1 = imageUrl i2 /\ strip (text i1) = strip (text i2).

Definition wide_item : RawItem := mkRawItem "http://img.test/wide.png" hi.
Definition missing_item : RawItem := mkRawItem "http://img.test/missing.png" hi.
Definition page_item : RawItem := mkRawItem "http://img.test/page.html" hi.

(** [m] is the largest element of [l]. *)
Definition is_max (m : Z) (l : list Z) : Prop := In m l /\ Forall (fun x => x <= m) l.

(** A block fits a cell: its measurements are non-negative and its own box
    (content plus padding) is no larger than the cell. *)
Definition fits (cell_width cell_height : Z) (b : Block) : Prop :=
  0 <= width (blk_image b) /\ 0 <= height (blk_image b) /\
  0 <= blk_text_width b /\ 0 <= blk_text_height b /\
  Z.max (width (blk_image b)) (blk_text_width b) + 2 * padding <= cell_width /\
  blk_text_height b + text_to_image_spacing + height (blk_image b) + 2 * padding
    <= cell_height.

(** The caption pasted at [(tx, ty)] and the image at [(ix, iy)] both lie in
    the cell of block [index], the image [text_to_image_spacing] below the
    caption. *)
Definition in_cell (cell_width cell_height : Z) (index : nat) (b : Block)
  (tx ty ix iy : Z) : Prop :=
  let '(x0, y0) := cell_origin cell_width cell_height index in
  x0 <= tx /\ tx + blk_text_width b <= x0 + cell_width /\
  y0 <= ty /\ ty + blk_text_height b <= y0 + cell_height /\
  x0 <= ix /\ ix + width (blk_image b) <= x0 + cell_width /\
  y0 <= iy /\ iy + height (blk_image b) <= y0 + cell_height /\
  iy = ty + blk_text_height b + text_to_image_spacing.

(** Run of the model on a one-item request: a 200x100 image captioned "Hi". *)
Definition demo_response : Response :=
  match endpoint demo_env [red_item] with
  | ROk r => r
  | _ => mkResponse "" (PngSave (New RGB 0 0 White) false 0)
  end.

Definition blank_caption_item : RawItem :=
  mkRawItem "http://img.test/red.png" (list_ascii_of_string "   ").
Definition empty_caption_item : RawItem :=
  mkRawItem "http://img.test/red.png" [].

(** The caption pasted at [(tx, ty)] and the image at [(ix, iy)] sit in the
    middle of the cell of block [index]: across the cell, the margin right of
    each exceeds the margin left of it by 0 to 2 pixels (two floor divisions);
    down the cell, the margin below the image exceeds the margin above the
    caption by 0 or 1. *)
Definition centred (cell_width cell_height : Z) (index : nat) (b : Block)
  (tx ty ix iy : Z) : Prop :=
  let '(x0, y0) := cell_origin cell_width cell_height index in
  0 <= (x0 + cell_width - (tx + blk_text_width b)) - (tx - x0) <= 2 /\
  0 <= (x0 + cell_width - (ix + width (blk_image b))) - (ix - x0) <= 2 /\
  0 <= (y0 + cell_height - (iy + height (blk_image b))) - (ty - y0) <= 1.

(** Two rectangles, given by top-left corner and size, share no pixel. *)
Definition disjoint_boxes (x1 y1 w1 h1 x2 y2 w2 h2 : Z) : Prop :=
  x1 + w1 <= x2 \/ x2 + w2 <= x1 \/ y1 + h1 <= y2 \/ y2 + h2 <= y1.

(** The rectangles covered by the caption pasted at [(tx, ty)] and the image
    pasted at [(ix, iy)] of block [b]. *)
Definition block_boxes (b : Block) (tx ty ix iy : Z) : list (Z * Z * Z * Z) :=
  [(tx, ty, blk_text_width b, blk_text_height b);
   (ix, iy, width (blk_image b), height (blk_image b))].

(** Every rectangle of the first list is disjoint from every rectangle of the
    second. *)
Definition boxes_apart (l1 l2 : list (Z * Z * Z * Z)) : Prop :=
  forall p q, In p l1 -> In q l2 ->
  let '(x1, y1, w1, h1) := p in
  let '(x2, y2, w2, h2) := q in
  disjoint_boxes x1 y1 w1 h1 x2 y2 w2 h2.

(** ** Arithmetic and bookkeeping lemmas *)

Lemma bind_ok_inv {A B} (r : Result A) (k : A -> Result B) (b : B) :
  bind r k = ROk b -> exists a, r = ROk a /\ k a = ROk b.
Proof. destruct r; simpl; intros H; [eauto | discriminate | discriminate]. Qed.

Ltac ok_inv H :=
  let a := fresh "a" in let Ha := fresh "Ha" in
  apply bind_ok_inv in H; destruct H as [a [Ha H]].

Lemma Zcompare_scale (a b k : Z) : 0 < k -> (a * k ?= k * b) = (a ?= b).
Proof.
  intros Hk. destruct (Z.compare_spec a b).
  - apply Z.compare_eq_iff; nia.
  - apply Z.compare_lt_iff; nia.
  - apply Z.compare_gt_iff; nia.
Qed.

Lemma py_div_ok (a b : Z) : b <> 0 -> py_div a b = ROk (inject_Z a / inject_Z b)%Q.
Proof. intros Hb. unfold py_div. destruct (Z.eqb_spec b 0); [contradiction | reflexivity]. Qed.

Lemma py_truediv_ok (a b : Z) :
  b <> 0 -> py_truediv a b = ROk (fl (inject_Z a / inject_Z b)%Q).
Proof. intros Hb. unfold py_truediv. destruct (Z.eqb_spec b 0); [contradiction | reflexivity]. Qed.

(** The two ratios of [contain] compare as the sides do. *)
Lemma ratio_compare_square (w h : Z) :
  0 < h ->
  (inject_Z w / inject_Z h ?= inject_Z max_image_edge / inject_Z max_image_edge)%Q
  = (w ?= h).
Proof.
  intros Hh. destruct h as [|p|p]; try lia.
  unfold Qcompare, Qdiv, Qmult, Qinv, inject_Z, max_image_edge; simpl.
  rewrite Z.mul_1_r, <- (Zcompare_scale w (Z.pos p) 1024) by lia. reflexivity.
Qed.

Lemma ratio_times_edge (a b : Z) :
  0 < b ->
  py_round (inject_Z a / inject_Z b * inject_Z max_image_edge)%Q
  = py_round_div (a * 1024) b.
Proof.
  intros Hb. destruct b as [|p|p]; try lia.
  unfold py_round, Qdiv, Qmult, Qinv, inject_Z, max_image_edge; simpl.
  rewrite Pos.mul_1_r, Z.mul_1_r. reflexivity.
Qed.

Lemma py_round_div_le (n d k : Z) : 0 < d -> n <= k * d -> py_round_div n d <= k.
Proof.
  intros Hd Hn. unfold py_round_div.
  pose proof (Z.div_mod n d ltac:(lia)) as Hdm.
  pose proof (Z.mod_pos_bound n d Hd) as Hr.
  set (q := n / d) in *. set (r := n mod d) in *.
  assert (q <= k) by nia.
  destruct (2 * r <? d) eqn:E1; [lia|].
  apply Z.ltb_ge in E1.
  assert (q < k) by nia.
  destruct (d <? 2 * r); [lia|]. destruct (Z.even q); lia.
Qed.

Lemma py_round_div_nonneg (n d : Z) : 0 < d -> 0 <= n -> 0 <= py_round_div n d.
Proof.
  intros Hd Hn. unfold py_round_div.
  pose proof (Z.div_pos n d Hn Hd).
  destruct (2 * (n mod d) <? d); [lia|].
  destruct (d <? 2 * (n mod d)); [lia|]. destruct (Z.even (n / d)); lia.
Qed.

Lemma py_round_div_self (h : Z) : 0 < h -> py_round_div (h * 1024) h = 1024.
Proof.
  intros Hh. unfold py_round_div.
  cbv zeta. rewrite (Z.mul_comm h 1024), Z.div_mul, Z.mod_mul by lia.
  replace (2 * 0 <? h) with true by (symmetry; apply Z.ltb_lt; lia). reflexivity.
Qed.

Lemma pil_resize_size (b r : Bitmap) (w h : Z) (m : Resample) :
  pil_resize b w h m = ROk r ->
  size r = (w, h) /\ (r = b \/ r = Resized b w h m) /\ (r = b \/ (1 <= w /\ 1 <= h)).
Proof.
  unfold pil_resize. destruct (size b) as [bw bh] eqn:Hs.
  destruct ((bw =? w) && (bh =? h)) eqn:E.
  - intros Heq; inversion Heq; subst. apply andb_true_iff in E as [E1 E2].
    apply Z.eqb_eq in E1, E2; subst. auto.
  - destruct ((w <? 1) || (h <? 1)) eqn:E2; intros Heq; inversion Heq; subst.
    apply orb_false_iff in E2 as [E3 E4]. apply Z.ltb_ge in E3, E4.
    simpl. auto.
Qed.

Lemma finalize_target_size (c f : Bitmap) :
  finalize c = ROk f ->
  size f = (TARGET_WIDTH, TARGET_HEIGHT) /\
  (size c = (TARGET_WIDTH, TARGET_HEIGHT) -> f = c).
Proof.
  unfold finalize. destruct (size c) as [cw ch] eqn:Hs.
  destruct ((cw =? TARGET_WIDTH) && (ch =? TARGET_HEIGHT)) eqn:E.
  - intros H; inversion H; subst. apply andb_true_iff in E as [E1 E2].
    apply Z.eqb_eq in E1, E2; subst. auto.
  - intros H. ok_inv H. ok_inv H. ok_inv H. ok_inv H.
    unfold pil_new in Ha2; simpl in Ha2. inversion Ha2; subst.
    inversion H; subst. split; [reflexivity|].
    intros Heq. injection Heq as -> ->. discriminate.
Qed.

Lemma combine_images_ok_inv (e : Env) (items : list Item) (r : Response) :
  combine_images e items = ROk r ->
  (1 <= List.length items <= 4)%nat /\
  exists blocks canvas final,
    fetch_blocks e (get_font e 60) items = ROk blocks /\
    compose_grid blocks = ROk canvas /\
    finalize canvas = ROk final /\
    r = mkResponse "image/png" (PngSave final true 6).
Proof.
  unfold combine_images.
  destruct ((1 <=? List.length items) && (List.length items <=? 4))%nat eqn:E;
    simpl; [|discriminate].
  apply andb_true_iff in E as [E1 E2]. apply Nat.leb_le in E1, E2.
  intros H. ok_inv H. ok_inv H. ok_inv H. inversion H; subst.
  split; [lia|]. eauto 7.
Qed.

Lemma centre_offsets (T x : Z) :
  1 <= T ->
  let s := Z.max 1 (Z.min T x) in
  1 <= s <= T /\ 0 <= (T - s) / 2 /\ (T - s) / 2 + s <= T /\
  0 <= (T - ((T - s) / 2 + s)) - (T - s) / 2 <= 1.
Proof.
  intros HT s.
  assert (Hs : 1 <= s <= T).
  { subst s. split; [apply Z.le_max_l|].
    apply Z.max_lub; [lia | apply Z.le_min_l]. }
  clearbody s.
  pose proof (Z.div_mod (T - s) 2 ltac:(lia)).
  pose proof (Z.mod_pos_bound (T - s) 2 ltac:(lia)).
  repeat split; lia.
Qed.

(** ** Claims *)

(** C1: every successful response is a PNG of the image [finalize] produced
    from the composed canvas, and that image measures exactly 2560x1408; a
    composed canvas that already has this size is encoded as it is. *)
Theorem combine_output_png_target_size (e : Env) (raw : list RawItem) (r : Response) :
  endpoint e raw = ROk r ->
  media_type r = "image/png" /\
  size (png_image (content r)) = (TARGET_WIDTH, TARGET_HEIGHT) /\
  exists items blocks canvas,
    validate_request e raw = Some items /\
    (1 <= List.length items <= 4)%nat /\
    fetch_blocks e (get_font e 60) items = ROk blocks /\
    compose_grid blocks = ROk canvas /\
    finalize canvas = ROk (png_image (content r)) /\
    (size canvas = (TARGET_WIDTH, TARGET_HEIGHT) -> png_image (content r) = canvas).
Proof.
  unfold endpoint. destruct (validate_request e raw) as [items|] eqn:Hv; [|discriminate].
  intros H. apply combine_images_ok_inv in H
    as [Hlen [blocks [canvas [final [Hb [Hc [Hf ->]]]]]]].
  simpl. pose proof (finalize_target_size canvas final Hf) as [Hsz Hsame].
  split; [reflexivity|]. split; [exact Hsz|].
  exists items, blocks, canvas. auto 7.
Qed.

Lemma combine_output_png_target_size_witness :
  endpoint demo_env [red_item] = ROk demo_response /\
  size (png_image (content demo_response)) = (TARGET_WIDTH, TARGET_HEIGHT).
Proof.
  split; [vm_compute; reflexivity|].
  apply (combine_output_png_target_size demo_env [red_item] demo_response).
  vm_compute. reflexivity.
Defined.

(** C2 fails: an image of 200x100, within 1024x1024, is not left at its size:
    [ImageOps.contain] enlarges it to 1024x512. *)
Lemma contain_enlarges_small_image :
  ~ (forall r, contain (Convert RGBA (Decoded [Byte.x01] 200 100))
                 max_image_edge max_image_edge = ROk r ->
               size r = (200, 100)).
Proof.
  intros Hclaim.
  specialize (Hclaim (Resized (Convert RGBA (Decoded [Byte.x01] 200 100)) 1024 512 BICUBIC)).
  assert (Hrun : contain (Convert RGBA (Decoded [Byte.x01] 200 100))
                   max_image_edge max_image_edge
                 = ROk (Resized (Convert RGBA (Decoded [Byte.x01] 200 100)) 1024 512 BICUBIC))
    by (vm_compute; reflexivity).
  specialize (Hclaim Hrun). discriminate Hclaim.
Qed.

(** C2 (amended): the resize step of an image of w x h (both positive) brings
    it to the largest size within 1024x1024 of its proportions: the longer
    side becomes exactly 1024 (enlarging small images), the other side is the
    proportional length rounded as Python's [round] does, and neither side
    exceeds 1024. *)
Theorem contain_fits_box (img r : Bitmap) (w h : Z) :
  size img = (w, h) -> 0 < w -> 0 < h ->
  contain img max_image_edge max_image_edge = ROk r ->
  (h <= w -> size r = (max_image_edge, py_round_div (h * 1024) w)) /\
  (w < h -> size r = (py_round_div (w * 1024) h, max_image_edge)) /\
  1 <= width r <= max_image_edge /\ 1 <= height r <= max_image_edge.
Proof.
  intros Hs Hw Hh H. unfold contain in H. rewrite Hs in H.
  rewrite (py_div_ok w h) in H by lia.
  rewrite (py_div_ok max_image_edge max_image_edge) in H
    by (unfold max_image_edge; lia).
  cbn [bind] in H. rewrite ratio_compare_square in H by lia.
  unfold width, height.
  destruct (w ?= h) eqn:C.
  - apply Z.compare_eq_iff in C; subst h. cbn [bind fst snd] in H.
    apply pil_resize_size in H as [Hsz _]. rewrite Hsz.
    rewrite py_round_div_self by lia. unfold max_image_edge; simpl.
    repeat split; lia.
  - assert (Hlt : w < h) by (apply Z.compare_lt_iff; exact C). cbn [bind] in H.
    rewrite ratio_times_edge in H by lia.
    set (nw := py_round_div (w * 1024) h) in *.
    assert (Hnw : nw <= 1024) by (apply py_round_div_le; nia).
    assert (Hres : pil_resize img nw max_image_edge BICUBIC = ROk r).
    { destruct (Z.eqb_spec nw max_image_edge) as [E|E]; simpl in H;
        [rewrite E; exact H | exact H]. }
    apply pil_resize_size in Hres as [Hsz [_ Hge]]. rewrite Hsz.
    unfold max_image_edge in *; simpl.
    destruct Hge as [-> | Hge]; [rewrite Hs in Hsz; injection Hsz as <- <- |];
      repeat split; lia.
  - assert (Hgt : h < w) by (apply Z.compare_gt_iff in C; lia).
    rewrite (py_div_ok h w) in H by lia. cbn [bind] in H.
    rewrite ratio_times_edge in H by lia.
    set (nh := py_round_div (h * 1024) w) in *.
    assert (Hnh : nh <= 1024) by (apply py_round_div_le; nia).
    assert (Hres : pil_resize img max_image_edge nh BICUBIC = ROk r).
    { destruct (Z.eqb_spec nh max_image_edge) as [E|E]; simpl in H;
        [rewrite E; exact H | exact H]. }
    apply pil_resize_size in Hres as [Hsz [_ Hge]]. rewrite Hsz.
    unfold max_image_edge in *; simpl.
    destruct Hge as [-> | Hge]; [rewrite Hs in Hsz; injection Hsz as <- <- |];
      repeat split; lia.
Qed.

Lemma contain_fits_box_witness :
  size (Resized (Convert RGBA (Decoded [Byte.x01] 200 100)) 1024 512 BICUBIC)
  = (max_image_edge, py_round_div (100 * 1024) 200).
Proof.
  apply (proj1 (contain_fits_box (Convert RGBA (Decoded [Byte.x01] 200 100))
                  (Resized (Convert RGBA (Decoded [Byte.x01] 200 100)) 1024 512 BICUBIC)
                  200 100 eq_refl ltac:(lia) ltac:(lia) ltac:(vm_compute; reflexivity)));
    lia.
Defined.

(** C4: a composed canvas of W x H other than 2560x1408 is scaled by the one
    factor min(2560/W, 1408/H), computed in double precision as the code
    does (each side is the truncated floating-point product, then clamped to
    [1, target]), and pasted onto a new white 2560x1408 canvas at the
    floor-divided centring offsets: the scaled canvas lies inside the target
    and the right (bottom) margin exceeds the left (top) one by 0 or 1. *)
Theorem finalize_letterbox (c f : Bitmap) (W H : Z) :
  size c = (W, H) -> (W, H) <> (TARGET_WIDTH, TARGET_HEIGHT) ->
  finalize c = ROk f ->
  let scale := Qmin (fl (inject_Z TARGET_WIDTH / inject_Z W))
                    (fl (inject_Z TARGET_HEIGHT / inject_Z H)) in
  let sw := Z.max 1 (Z.min TARGET_WIDTH (py_int (py_int_mul_float W scale))) in
  let sh := Z.max 1 (Z.min TARGET_HEIGHT (py_int (py_int_mul_float H scale))) in
  let px := (TARGET_WIDTH - sw) / 2 in
  let py := (TARGET_HEIGHT - sh) / 2 in
  exists scaled,
    f = Pasted (New RGB TARGET_WIDTH TARGET_HEIGHT White) scaled px py None /\
    (scaled = c \/ scaled = Resized c sw sh LANCZOS) /\
    size scaled = (sw, sh) /\
    1 <= sw <= TARGET_WIDTH /\ 1 <= sh <= TARGET_HEIGHT /\
    0 <= px /\ px + sw <= TARGET_WIDTH /\ 0 <= (TARGET_WIDTH - (px + sw)) - px <= 1 /\
    0 <= py /\ py + sh <= TARGET_HEIGHT /\ 0 <= (TARGET_HEIGHT - (py + sh)) - py <= 1.
Proof.
  intros Hs Hne Hfin. unfold finalize in Hfin. rewrite Hs in Hfin.
  destruct ((W =? TARGET_WIDTH) && (H =? TARGET_HEIGHT)) eqn:E.
  { apply andb_true_iff in E as [E1 E2]. apply Z.eqb_eq in E1, E2. subst.
    contradiction. }
  ok_inv Hfin. ok_inv Hfin. ok_inv Hfin. ok_inv Hfin.
  unfold py_truediv in Ha, Ha0.
  destruct (W =? 0); [discriminate|]. destruct (H =? 0); [discriminate|].
  injection Ha as <-. injection Ha0 as <-.
  unfold pil_new in Ha2; simpl in Ha2. injection Ha2 as <-.
  injection Hfin as <-.
  apply pil_resize_size in Ha1 as [Hsz [Hor _]].
  intros scale sw sh px py. exists a1.
  split; [reflexivity|]. split; [exact Hor|]. split; [exact Hsz|].
  pose proof (centre_offsets TARGET_WIDTH (py_int (py_int_mul_float W scale))
                ltac:(unfold TARGET_WIDTH; lia)) as Cx.
  pose proof (centre_offsets TARGET_HEIGHT (py_int (py_int_mul_float H scale))
                ltac:(unfold TARGET_HEIGHT; lia)) as Cy.
  cbv zeta in Cx, Cy. fold sw in Cx. fold sh in Cy. fold px in Cx. fold py in Cy.
  tauto.
Qed.

Lemma finalize_letterbox_witness :
  exists scaled,
    Pasted (New RGB 2560 1408 White)
      (Resized (New RGB 1072 613 White) 2462 1407 LANCZOS) 49 0 None
    = Pasted (New RGB TARGET_WIDTH TARGET_HEIGHT White) scaled 49 0 None.
Proof.
  destruct (finalize_letterbox (New RGB 1072 613 White)
              (Pasted (New RGB 2560 1408 White)
                 (Resized (New RGB 1072 613 White) 2462 1407 LANCZOS) 49 0 None)
              1072 613 eq_refl ltac:(discriminate) ltac:(vm_compute; reflexivity))
    as [scaled [Hf _]].
  exists scaled. vm_compute in Hf. exact Hf.
Defined.

(** C6: an empty caption after [strip] gives a fully transparent 1x1 RGBA
    image; any other caption gives a transparent RGBA image exactly the size
    of its text bounding box, with the text drawn in black at minus the box's
    top-left corner, so that corner falls on the image origin. *)
Theorem render_text_image_spec (e : Env) (t : list ascii) (font : Font) :
  (strip t = [] ->
   render_text_image e t font = ROk (New RGBA 1 1 Transparent, 1, 1)) /\
  (forall x0 y0 x1 y1,
     strip t <> [] ->
     textbbox e font (strip t) = (x0, y0, x1, y1) -> x0 <= x1 -> y0 <= y1 ->
     render_text_image e t font =
     ROk (TextDrawn (New RGBA (x1 - x0) (y1 - y0) Transparent) (- x0) (- y0)
            (strip t) Black font, x1 - x0, y1 - y0)).
Proof.
  unfold render_text_image. split.
  - intros Hs. cbv zeta. rewrite Hs. reflexivity.
  - intros x0 y0 x1 y1 Hne Hb Hx Hy. cbv zeta.
    destruct (strip t) as [|c rest]; [contradiction|].
    rewrite Hb. unfold pil_new.
    replace ((x1 - x0 <? 0) || (y1 - y0 <? 0)) with false
      by (symmetry; apply orb_false_iff; split; apply Z.ltb_ge; lia).
    reflexivity.
Qed.

Lemma render_text_image_spec_witness :
  render_text_image demo_env hi DefaultFont =
  ROk (TextDrawn (New RGBA 68 44 Transparent) (-2) (-14) hi Black DefaultFont, 68, 44).
Proof.
  apply (proj2 (render_text_image_spec demo_env hi DefaultFont) 2 14 70 58);
    [intros Hx; discriminate Hx | vm_compute; reflexivity | lia | lia].
Defined.

(** Request validation *)

Lemma validate_item_none (e : Env) (it : RawItem) :
  validate_item e it = None <->
  raw_text it = [] \/ parse_http_url e (raw_url it) = None.
Proof.
  unfold validate_item. destruct (parse_http_url e (raw_url it)); [|tauto].
  destruct (raw_text it) as [|c rest]; simpl; split; intros Hx;
    try discriminate; try tauto.
  destruct Hx as [Hx|Hx]; discriminate.
Qed.

Lemma validate_request_forall2 (e : Env) (raw : list RawItem) (items : list Item) :
  validate_request e raw = Some items ->
  Forall2 (fun r i => validate_item e r = Some i) raw items.
Proof.
  revert items. induction raw as [|it rest IH]; simpl; intros items H.
  - injection H as <-. constructor.
  - destruct (validate_item e it) eqn:Hi; [|discriminate].
    destruct (validate_request e rest) eqn:Hr; [|discriminate].
    injection H as <-. constructor; auto.
Qed.

Lemma validate_request_complete (e : Env) (raw : list RawItem) :
  (forall it, In it raw -> validate_item e it <> None) ->
  exists items, validate_request e raw = Some items.
Proof.
  induction raw as [|it rest IH]; simpl; intros Hall; [eauto|].
  destruct (validate_item e it) eqn:Hi; [|exfalso; apply (Hall it); auto].
  destruct IH as [items ->]; [intros x Hx; apply Hall; auto|]. eauto.
Qed.

Lemma validate_request_reject (e : Env) (raw : list RawItem) (it : RawItem) :
  In it raw -> validate_item e it = None -> validate_request e raw = None.
Proof.
  induction raw as [|x rest IH]; simpl; [tauto|].
  intros [<- | Hin] Hi.
  - rewrite Hi. reflexivity.
  - rewrite (IH Hin Hi). destruct (validate_item e x); reflexivity.
Qed.

(** C3 fails: a caption of spaces only is not rejected (the request succeeds
    with an image), and an empty caption is refused with status 422, not 400. *)
Lemma blank_caption_not_rejected :
  (exists r, endpoint demo_env [blank_caption_item] = ROk r) /\
  (exists d, endpoint demo_env [empty_caption_item] = RErr 422 d).
Proof. split; eexists; vm_compute; reflexivity. Qed.

(** C3 (amended): with every item accepted by the request model, a count of 0
    or more than 4 gives status 400; an item with an empty text or a URL that
    is not an HTTP(S) URL makes the request model reject the body (status 422)
    before the handler runs; any text of at least one character, blank or not,
    is accepted as it is. *)
Theorem request_validation_outcomes (e : Env) (raw : list RawItem) :
  ((forall it, In it raw -> validate_item e it <> None) ->
   (List.length raw = 0 \/ 4 < List.length raw)%nat ->
   endpoint e raw = RErr 400 "Provide between 1 and 4 items.") /\
  ((exists it, In it raw /\
     (raw_text it = [] \/ parse_http_url e (raw_url it) = None)) ->
   endpoint e raw = RErr 422 "Unprocessable Entity") /\
  (forall it u, In it raw -> parse_http_url e (raw_url it) = Some u ->
   raw_text it <> [] -> validate_item e it = Some (mkItem u (raw_text it))).
Proof.
  split; [|split].
  - intros Hall Hlen. destruct (validate_request_complete e raw Hall) as [items Hv].
    pose proof (Forall2_length (validate_request_forall2 e raw items Hv)) as Hl.
    unfold endpoint. rewrite Hv. unfold combine_images.
    replace ((1 <=? List.length items) && (List.length items <=? 4))%nat with false;
      [reflexivity|].
    symmetry. apply andb_false_iff. rewrite <- Hl.
    destruct Hlen as [Hlen|Hlen]; [left | right]; apply Nat.leb_gt; lia.
  - intros [it [Hin Hbad]]. unfold endpoint.
    rewrite (validate_request_reject e raw it Hin); [reflexivity|].
    apply validate_item_none. exact Hbad.
  - intros it u _ Hu Ht. unfold validate_item. rewrite Hu.
    destruct (raw_text it) as [|c rest]; [contradiction|]. reflexivity.
Qed.

Lemma request_validation_outcomes_witness :
  endpoint demo_env [] = RErr 400 "Provide between 1 and 4 items." /\
  endpoint demo_env [empty_caption_item] = RErr 422 "Unprocessable Entity" /\
  validate_item demo_env blank_caption_item =
    Some (mkItem "http://img.test/red.png" (list_ascii_of_string "   ")).
Proof.
  split; [|split].
  - apply (proj1 (request_validation_outcomes demo_env [])).
    + intros it Hin; destruct Hin.
    + left; reflexivity.
  - apply (proj1 (proj2 (request_validation_outcomes demo_env [empty_caption_item]))).
    exists empty_caption_item. split; [left; reflexivity | left; reflexivity].
  - apply (proj2 (proj2 (request_validation_outcomes demo_env [blank_caption_item])));
      [left; reflexivity | vm_compute; reflexivity | intros Hx; discriminate Hx].
Defined.

(** Composing the grid *)

Lemma place_block_spec (cw ch : Z) (k : nat) (b : Block) (c : Bitmap) :
  fits cw ch b ->
  size (place_block cw ch k b c) = size c /\
  base (place_block cw ch k b c) = base c /\
  rects (place_block cw ch k b c) = rects c ++ [cell_border cw ch k 0; cell_border cw ch k 1] /\
  exists tx ty ix iy,
    pastes (place_block cw ch k b c) =
      pastes c ++ [(blk_text_image b, tx, ty); (blk_image b, ix, iy)] /\
    in_cell cw ch k b tx ty ix iy.
Proof.
  intros Hf. unfold place_block, draw_border, cell_border, in_cell, cell_origin.
  simpl. split; [reflexivity|]. split; [reflexivity|].
  split; [rewrite <- app_assoc; reflexivity|].
  do 4 eexists. split; [rewrite <- app_assoc; reflexivity|].
  unfold fits, padding, text_to_image_spacing in *.
  set (x0 := Z.of_nat k mod 2 * cw). set (y0 := Z.of_nat k / 2 * ch).
  set (iw := width (blk_image b)) in *. set (ih := height (blk_image b)) in *.
  set (tw := blk_text_width b) in *. set (th := blk_text_height b) in *.
  clearbody x0 y0 iw ih tw th.
  assert (Hm1 : iw <= Z.max iw tw) by apply Z.le_max_l.
  assert (Hm2 : tw <= Z.max iw tw) by apply Z.le_max_r.
  set (m := Z.max iw tw) in *. clearbody m.
  destruct Hf as (Hiw & Hih & Htw & Hth & Hcw & Hch).
  pose proof (Z.div_mod (cw - (m + 48)) 2 ltac:(lia)).
  pose proof (Z.mod_pos_bound (cw - (m + 48)) 2 ltac:(lia)).
  pose proof (Z.div_mod (m + 48 - tw) 2 ltac:(lia)).
  pose proof (Z.mod_pos_bound (m + 48 - tw) 2 ltac:(lia)).
  pose proof (Z.div_mod (m + 48 - iw) 2 ltac:(lia)).
  pose proof (Z.mod_pos_bound (m + 48 - iw) 2 ltac:(lia)).
  pose proof (Z.div_mod (ch - (th + 8 + ih + 48)) 2 ltac:(lia)).
  pose proof (Z.mod_pos_bound (ch - (th + 8 + ih + 48)) 2 ltac:(lia)).
  repeat split; lia.
Qed.

Lemma place_blocks_spec (cw ch : Z) (bs : list Block) :
  Forall (fits cw ch) bs ->
  forall (k : nat) (c : Bitmap),
  let c' := place_blocks cw ch k bs c in
  size c' = size c /\
  base c' = base c /\
  (forall r, In r (rects c') <->
     In r (rects c) \/
     exists i j, (i < List.length bs)%nat /\ (j < 2)%nat /\ r = cell_border cw ch (k + i) j) /\
  (exists rest, pastes c' = pastes c ++ rest /\
     List.length rest = (2 * List.length bs)%nat) /\
  (forall i b, nth_error bs i = Some b ->
   exists tx ty ix iy,
     nth_error (pastes c') (List.length (pastes c) + 2 * i) = Some (blk_text_image b, tx, ty) /\
     nth_error (pastes c') (List.length (pastes c) + 2 * i + 1) = Some (blk_image b, ix, iy) /\
     in_cell cw ch (k + i) b tx ty ix iy).
Proof.
  induction bs as [|b bs IH]; intros Hall k c c'; subst c'; simpl.
  - split; [reflexivity|]. split; [reflexivity|].
    split; [|split; [exists []; rewrite app_nil_r; split; reflexivity|]].
    + intros r. split; [tauto|]. intros [Hr|[i [j [Hi _]]]]; [exact Hr | lia].
    + intros i b Hn. destruct i; discriminate.
  - inversion Hall as [|? ? Hb Hrest]; subst.
    destruct (place_block_spec cw ch k b c Hb)
      as [Hsz1 [Hbase1 [Hrect1 [tx [ty [ix [iy [Hp1 Hin1]]]]]]]].
    set (c1 := place_block cw ch k b c) in *.
    destruct (IH Hrest (S k) c1) as [Hsz [Hbase [Hrect [[rest [Hp Hlen]] Hnth]]]].
    split; [congruence|]. split; [congruence|].
    split; [|split].
    + intros r. rewrite Hrect, Hrect1, in_app_iff. simpl. split.
      * intros [[Hr | [Hr | [Hr | []]]] | [i [j [Hi [Hj Hr]]]]].
        -- left; exact Hr.
        -- right. exists 0%nat, 0%nat. rewrite Nat.add_0_r. repeat split; auto; lia.
        -- right. exists 0%nat, 1%nat. rewrite Nat.add_0_r. repeat split; auto; lia.
        -- right. exists (S i), j. rewrite <- plus_n_Sm. repeat split; auto; lia.
      * intros [Hr | [i [j [Hi [Hj Hr]]]]]; [left; left; exact Hr|].
        destruct i as [|i].
        -- rewrite Nat.add_0_r in Hr. left; right.
           destruct j as [|[|j]]; [left; congruence | right; left; congruence | lia].
        -- right. exists i, j. rewrite <- plus_n_Sm in Hr. repeat split; auto; lia.
    + exists ([(blk_text_image b, tx, ty); (blk_image b, ix, iy)] ++ rest).
      rewrite Hp, Hp1, app_assoc. split; [reflexivity|].
      rewrite length_app, Hlen. simpl. lia.
    + intros i b' Hn. rewrite Hp. rewrite Hp1.
      destruct i as [|i].
      * simpl in Hn. injection Hn as <-. exists tx, ty, ix, iy.
        rewrite <- !app_assoc. split; [|split].
        -- rewrite nth_error_app2 by lia.
           replace (_ - _)%nat with 0%nat by lia. reflexivity.
        -- rewrite nth_error_app2 by lia.
           replace (_ - _)%nat with 1%nat by lia. reflexivity.
        -- rewrite Nat.add_0_r. exact Hin1.
      * simpl in Hn. destruct (Hnth i b' Hn) as [tx' [ty' [ix' [iy' [H1 [H2 H3]]]]]].
        exists tx', ty', ix', iy'.
        rewrite Hp, Hp1, length_app in H1, H2. cbn [List.length] in H1, H2.
        replace (k + S i)%nat with (S k + i)%nat by lia.
        match goal with
        | |- nth_error _ ?n1 = _ /\ nth_error _ ?n2 = _ /\ _ =>
            replace n1 with (List.length (pastes c) + 2 + 2 * i)%nat by lia;
            replace n2 with (List.length (pastes c) + 2 + 2 * i + 1)%nat by lia
        end.
        split; [exact H1 | split; [exact H2 | exact H3]].
Qed.

Lemma fold_max_spec (rest : list Z) (x : Z) :
  In (fold_left Z.max rest x) (x :: rest) /\
  Forall (fun y => y <= fold_left Z.max rest x) (x :: rest).
Proof.
  revert x. induction rest as [|y rest IH]; intros x; simpl.
  - split; [auto|]. constructor; [lia | constructor].
  - destruct (IH (Z.max x y)) as [Hin Hall].
    inversion Hall as [|? ? Hxy Hr]; subst.
    split.
    + destruct Hin as [Hin|Hin]; [|right; right; exact Hin].
      rewrite <- Hin. destruct (Z.max_spec x y) as [[_ ->]|[_ ->]]; auto.
    + constructor; [lia|]. constructor; [lia | exact Hr].
Qed.

Lemma py_max_is_max (l : list Z) (m : Z) : py_max l = ROk m -> is_max m l.
Proof.
  destruct l as [|x rest]; simpl; [discriminate|].
  intros H. injection H as <-. apply fold_max_spec.
Qed.

Lemma is_max_ge {A} (f : A -> Z) (l : list A) (m : Z) (a : A) :
  is_max m (map f l) -> In a l -> f a <= m.
Proof.
  intros [_ Hall] Hin. rewrite Forall_forall in Hall.
  apply Hall. apply in_map. exact Hin.
Qed.

Lemma compose_grid_inv (bs : list Block) (c : Bitmap) :
  compose_grid bs = ROk c ->
  exists mcw mih mth cols rows,
    is_max mcw (map (fun b => Z.max (width (blk_image b)) (blk_text_width b)) bs) /\
    is_max mih (map (fun b => height (blk_image b)) bs) /\
    is_max mth (map blk_text_height bs) /\
    grid_shape (List.length bs) = (cols, rows) /\
    let cw := mcw + 2 * padding in
    let ch := mih + mth + text_to_image_spacing + 2 * padding in
    c = place_blocks cw ch 0 bs (New RGB (cw * cols) (ch * rows) White).
Proof.
  unfold compose_grid. intros H.
  ok_inv H. ok_inv H. ok_inv H.
  destruct (grid_shape (List.length bs)) as [cols rows] eqn:Hg.
  ok_inv H. unfold pil_new in Ha2.
  destruct (_ || _); [discriminate|]. injection Ha2 as <-. injection H as <-.
  exists a, a0, a1, cols, rows.
  split; [apply py_max_is_max; exact Ha|].
  split; [apply py_max_is_max; exact Ha0|].
  split; [apply py_max_is_max; exact Ha1|].
  split; reflexivity.
Qed.

Lemma blocks_fit (bs : list Block) (mcw mih mth : Z) :
  (forall b, In b bs ->
     0 <= width (blk_image b) /\ 0 <= height (blk_image b) /\
     0 <= blk_text_width b /\ 0 <= blk_text_height b) ->
  is_max mcw (map (fun b => Z.max (width (blk_image b)) (blk_text_width b)) bs) ->
  is_max mih (map (fun b => height (blk_image b)) bs) ->
  is_max mth (map blk_text_height bs) ->
  Forall (fits (mcw + 2 * padding) (mih + mth + text_to_image_spacing + 2 * padding)) bs.
Proof.
  intros Hnn Hw Hh Ht. apply Forall_forall. intros b Hin.
  pose proof (is_max_ge _ _ _ b Hw Hin). pose proof (is_max_ge _ _ _ b Hh Hin).
  pose proof (is_max_ge _ _ _ b Ht Hin). pose proof (Hnn b Hin).
  unfold fits, padding, text_to_image_spacing in *. simpl in *. lia.
Qed.

(** C5: for 1 to 4 blocks of non-negative measurements, the composed canvas is
    a white RGB canvas of cellWidth*cols by cellHeight*rows, with
    cellWidth = maxContentWidth + 2*24 and
    cellHeight = maxImageHeight + maxCaptionHeight + 8 + 2*24 (maxima over all
    blocks), a 1x1 grid for 1 block, 2 columns by 1 row for 2, 2x2 for 3 or 4;
    the only things pasted on it are, for each block i in order, its caption
    and its image, both inside the cell at row i/2, column i mod 2 (so the
    fourth cell stays empty for 3 blocks). *)
Theorem compose_grid_layout (bs : list Block) (c : Bitmap) :
  (1 <= List.length bs <= 4)%nat ->
  (forall b, In b bs ->
     0 <= width (blk_image b) /\ 0 <= height (blk_image b) /\
     0 <= blk_text_width b /\ 0 <= blk_text_height b) ->
  compose_grid bs = ROk c ->
  exists max_content_width max_image_height max_text_height cols rows,
    is_max max_content_width
      (map (fun b => Z.max (width (blk_image b)) (blk_text_width b)) bs) /\
    is_max max_image_height (map (fun b => height (blk_image b)) bs) /\
    is_max max_text_height (map blk_text_height bs) /\
    grid_shape (List.length bs) = (cols, rows) /\
    ((List.length bs = 1)%nat -> (cols, rows) = (1, 1)) /\
    ((List.length bs = 2)%nat -> (cols, rows) = (2, 1)) /\
    ((List.length bs = 3 \/ List.length bs = 4)%nat -> (cols, rows) = (2, 2)) /\
    let cell_width := max_content_width + 2 * 24 in
    let cell_height := max_image_height + max_text_height + 8 + 2 * 24 in
    size c = (cell_width * cols, cell_height * rows) /\
    base c = New RGB (cell_width * cols) (cell_height * rows) White /\
    List.length (pastes c) = (2 * List.length bs)%nat /\
    forall i b, nth_error bs i = Some b ->
      Z.of_nat i mod 2 < cols /\ Z.of_nat i / 2 < rows /\
      cell_origin cell_width cell_height i =
        ((Z.of_nat i mod 2) * cell_width, (Z.of_nat i / 2) * cell_height) /\
      exists tx ty ix iy,
        nth_error (pastes c) (2 * i) = Some (blk_text_image b, tx, ty) /\
        nth_error (pastes c) (2 * i + 1) = Some (blk_image b, ix, iy) /\
        in_cell cell_width cell_height i b tx ty ix iy.
Proof.
  intros Hlen Hnn Hc.
  destruct (compose_grid_inv bs c Hc)
    as [mcw [mih [mth [cols [rows [Hw [Hh [Ht [Hg Hcanvas]]]]]]]]].
  pose proof (blocks_fit bs mcw mih mth Hnn Hw Hh Ht) as Hfit.
  exists mcw, mih, mth, cols, rows.
  assert (Hshape :
    ((List.length bs = 1)%nat -> (cols, rows) = (1, 1)) /\
    ((List.length bs = 2)%nat -> (cols, rows) = (2, 1)) /\
    ((List.length bs = 3 \/ List.length bs = 4)%nat -> (cols, rows) = (2, 2))).
  { rewrite <- Hg. unfold grid_shape.
    split; [|split]; intros Hn;
      [rewrite Hn | rewrite Hn | destruct Hn as [Hn|Hn]; rewrite Hn]; reflexivity. }
  do 4 (split; [assumption|]). split; [tauto|]. split; [tauto|]. split; [tauto|].
  intros cell_width cell_height.
  cbv zeta in Hcanvas. unfold padding, text_to_image_spacing in Hcanvas, Hfit.
  fold cell_width cell_height in Hcanvas, Hfit.
  destruct (place_blocks_spec cell_width cell_height bs Hfit 0
              (New RGB (cell_width * cols) (cell_height * rows) White))
    as [Hsz [Hbase [_ [[rest [Hp Hl]] Hnth]]]].
  rewrite <- Hcanvas in Hsz, Hbase, Hp, Hnth.
  split; [exact Hsz|]. split; [exact Hbase|].
  split; [rewrite Hp; simpl; exact Hl|].
  intros i b Hn.
  assert (Hi : (i < List.length bs)%nat) by (apply nth_error_Some; congruence).
  split; [|split; [|split; [reflexivity|]]].
  - destruct Hshape as [H1 [H2 H3]].
    assert (Z.of_nat i mod 2 < 2) by (apply Z.mod_pos_bound; lia).
    destruct (Nat.eq_dec (List.length bs) 1) as [E|E];
      [injection (H1 E) as -> ->; assert (i = 0)%nat by lia; subst; reflexivity|].
    destruct (Nat.eq_dec (List.length bs) 2) as [E2|E2];
      [injection (H2 E2) as -> ->; lia|].
    injection (H3 ltac:(lia)) as -> ->; lia.
  - destruct Hshape as [H1 [H2 H3]].
    destruct (Nat.eq_dec (List.length bs) 1) as [E|E];
      [injection (H1 E) as -> ->; assert (i = 0)%nat by lia; subst; reflexivity|].
    destruct (Nat.eq_dec (List.length bs) 2) as [E2|E2];
      [injection (H2 E2) as -> ->; assert (i = 0 \/ i = 1)%nat as [-> | ->] by lia;
       reflexivity|].
    injection (H3 ltac:(lia)) as -> ->.
    assert (i = 0 \/ i = 1 \/ i = 2 \/ i = 3)%nat as [-> | [-> | [-> | ->]]] by lia;
      reflexivity.
  - destruct (Hnth i b Hn) as [tx [ty [ix [iy [H1 [H2 H3]]]]]].
    exists tx, ty, ix, iy. simpl in H1, H2, H3. auto.
Qed.

Lemma compose_grid_layout_witness :
  compose_grid demo_blocks3 = ROk demo_canvas3 /\
  List.length (pastes demo_canvas3) = 6%nat.
Proof.
  split; [vm_compute; reflexivity|].
  destruct (compose_grid_layout demo_blocks3 demo_canvas3 ltac:(simpl; lia)
              ltac:(intros b [<- | [<- | [<- | []]]]; vm_compute; repeat split; discriminate)
              ltac:(vm_compute; reflexivity))
    as [m1 [m2 [m3 [cols [rows [_ [_ [_ [_ [_ [_ [_ [_ [_ [Hl _]]]]]]]]]]]]]]].
  exact Hl.
Defined.

(** C8 fails: with 3 blocks the grid is 2x2 but the fourth, empty cell (at
    column 1, row 1 of cells of 1072x612) gets no outline at all. *)
Lemma empty_cell_has_no_border :
  grid_shape 3 = (2, 2) /\
  compose_grid demo_blocks3 = ROk demo_canvas3 /\
  ~ In (cell_border 1072 612 3 0) (rects demo_canvas3) /\
  ~ In (cell_border 1072 612 3 1) (rects demo_canvas3).
Proof.
  split; [reflexivity|]. split; [vm_compute; reflexivity|].
  split; vm_compute; intros Hin; repeat destruct Hin as [Hin|Hin]; try discriminate Hin;
    exact Hin.
Qed.

(** C8 (amended): after composing, the outlines on the canvas are exactly two
    concentric 1-pixel black rectangles per block, at the edge of that block's
    cell and one pixel inside it; a cell with no block (the fourth for 3
    items) gets none. *)
Theorem compose_grid_borders (bs : list Block) (c : Bitmap) :
  (1 <= List.length bs <= 4)%nat ->
  (forall b, In b bs ->
     0 <= width (blk_image b) /\ 0 <= height (blk_image b) /\
     0 <= blk_text_width b /\ 0 <= blk_text_height b) ->
  compose_grid bs = ROk c ->
  exists max_content_width max_image_height max_text_height,
    is_max max_content_width
      (map (fun b => Z.max (width (blk_image b)) (blk_text_width b)) bs) /\
    is_max max_image_height (map (fun b => height (blk_image b)) bs) /\
    is_max max_text_height (map blk_text_height bs) /\
    let cell_width := max_content_width + 2 * 24 in
    let cell_height := max_image_height + max_text_height + 8 + 2 * 24 in
    forall r, In r (rects c) <->
      exists i j, (i < List.length bs)%nat /\ (j < 2)%nat /\
        r = cell_border cell_width cell_height i j.
Proof.
  intros Hlen Hnn Hc.
  destruct (compose_grid_inv bs c Hc)
    as [mcw [mih [mth [cols [rows [Hw [Hh [Ht [Hg Hcanvas]]]]]]]]].
  pose proof (blocks_fit bs mcw mih mth Hnn Hw Hh Ht) as Hfit.
  exists mcw, mih, mth. split; [exact Hw|]. split; [exact Hh|]. split; [exact Ht|].
  intros cell_width cell_height.
  cbv zeta in Hcanvas. unfold padding, text_to_image_spacing in Hcanvas, Hfit.
  fold cell_width cell_height in Hcanvas, Hfit.
  destruct (place_blocks_spec cell_width cell_height bs Hfit 0
              (New RGB (cell_width * cols) (cell_height * rows) White))
    as [_ [_ [Hrect _]]].
  rewrite <- Hcanvas in Hrect.
  intros r. rewrite Hrect. simpl. split; [intros [[]|Hx]; exact Hx | intros Hx; right; exact Hx].
Qed.

Lemma compose_grid_borders_witness :
  In (cell_border 1072 612 2 1) (rects demo_canvas3).
Proof.
  destruct (compose_grid_borders demo_blocks3 demo_canvas3 ltac:(simpl; lia)
              ltac:(intros b [<- | [<- | [<- | []]]]; vm_compute; repeat split; discriminate)
              ltac:(vm_compute; reflexivity))
    as [m1 [m2 [m3 [[Hw _] [[Hh _] [[Ht _] Hr]]]]]].
  vm_compute in Hw, Hh, Ht.
  destruct Hw as [<- | [<- | [<- | []]]]; destruct Hh as [<- | [<- | [<- | []]]];
    destruct Ht as [<- | [<- | [<- | []]]];
    (apply (proj2 (Hr _)); exists 2%nat, 1%nat; split; [simpl; lia | split; [lia | reflexivity]]).
Defined.

(** Download failures *)

Lemma fetch_image_download_failed (e : Env) (url : string) :
  download_failed e url ->
  fetch_image e url = RErr 400 (String.append "Failed to download image: " url).
Proof.
  unfold download_failed, fetch_image. destruct (http_get e url) as [|st body]; [auto|].
  intros Hst. destruct ((200 <=? st) && (st <? 300)) eqn:E; [|reflexivity].
  apply andb_true_iff in E as [E1 E2]. apply Z.leb_le in E1. apply Z.ltb_lt in E2.
  exfalso; apply Hst; lia.
Qed.

Lemma fetch_image_decode_failed (e : Env) (url : string) :
  decode_failed e url ->
  fetch_image e url = RErr 400 (String.append "Invalid image content at: " url).
Proof.
  intros [st [body [Hg [Hst Ho]]]]. unfold fetch_image. rewrite Hg, Ho.
  replace ((200 <=? st) && (st <? 300)) with true; [reflexivity|].
  symmetry. apply andb_true_iff. split; [apply Z.leb_le | apply Z.ltb_lt]; lia.
Qed.

Lemma fetch_blocks_first_error (e : Env) (font : Font) (items : list Item)
  (j : nat) (it : Item) (s : Z) (d : string) :
  nth_error items j = Some it ->
  (forall k it', (k < j)%nat -> nth_error items k = Some it' ->
     exists b, process_item e font it' = ROk b) ->
  process_item e font it = RErr s d ->
  fetch_blocks e font items = RErr s d.
Proof.
  revert j. induction items as [|x rest IH]; intros j Hj Hbefore Hit;
    [destruct j; discriminate|].
  destruct j as [|j]; simpl in Hj.
  - injection Hj as ->. simpl. rewrite Hit. reflexivity.
  - destruct (Hbefore 0%nat x ltac:(lia) eq_refl) as [b Hb].
    simpl. rewrite Hb. simpl.
    rewrite (IH j Hj); [reflexivity| |exact Hit].
    intros k it' Hk Hn. apply (Hbefore (S k) it'); [lia | exact Hn].
Qed.

(** C7 fails: a fetch that returns 404 does not always give a 400 naming its
    URL; when an earlier item fails in another way (a 4096x1 image, whose
    contained height rounds to 0, makes the resize raise), the request fails
    with that error instead. *)
Lemma earlier_failure_masks_download_error :
  download_failed demo_env "http://img.test/missing.png" /\
  endpoint demo_env [wide_item; missing_item] =
    RCrash "ValueError: height and width must be > 0".
Proof.
  split; [vm_compute; intros Hx; destruct Hx as [Hx1 Hx2]; discriminate Hx2|].
  vm_compute. reflexivity.
Qed.

(** C7 (amended): the items are processed in order and the first failing one
    aborts the whole request with no image; when that first failure is a
    transport error or a non-2xx status, the response is 400 with a detail
    naming its URL as a download failure, and when it is a body that cannot be
    opened as an image, 400 with a detail naming its URL as invalid content. *)
Theorem first_failure_reported (e : Env) (raw : list RawItem) (items : list Item)
  (j : nat) (it : Item) :
  validate_request e raw = Some items ->
  (1 <= List.length items <= 4)%nat ->
  nth_error items j = Some it ->
  (forall k it', (k < j)%nat -> nth_error items k = Some it' ->
     exists b, process_item e (get_font e 60) it' = ROk b) ->
  (download_failed e (imageUrl it) ->
   endpoint e raw = RErr 400 (String.append "Failed to download image: " (imageUrl it))) /\
  (decode_failed e (imageUrl it) ->
   endpoint e raw = RErr 400 (String.append "Invalid image content at: " (imageUrl it))).
Proof.
  intros Hv Hlen Hj Hbefore.
  assert (Hcomb : forall d, process_item e (get_font e 60) it = RErr 400 d ->
                            endpoint e raw = RErr 400 d).
  { intros d Hp. unfold endpoint. rewrite Hv. unfold combine_images.
    replace ((1 <=? List.length items) && (List.length items <=? 4))%nat with true
      by (symmetry; apply andb_true_iff; split; apply Nat.leb_le; lia).
    simpl. rewrite (fetch_blocks_first_error e (get_font e 60) items j it 400 d Hj Hbefore Hp).
    reflexivity. }
  split; intros Hf; apply Hcomb; unfold process_item.
  - rewrite (fetch_image_download_failed e _ Hf). reflexivity.
  - rewrite (fetch_image_decode_failed e _ Hf). reflexivity.
Qed.

Lemma first_failure_reported_witness :
  endpoint demo_env [red_item; page_item] =
    RErr 400 "Invalid image content at: http://img.test/page.html".
Proof.
  apply (proj2 (first_failure_reported demo_env [red_item; page_item]
    [mkItem "http://img.test/red.png" hi; mkItem "http://img.test/page.html" hi]
    1 (mkItem "http://img.test/page.html" hi)
    ltac:(vm_compute; reflexivity) ltac:(simpl; lia) eq_refl
    ltac:(intros k it' Hk Hn; destruct k as [|k]; [|lia];
          injection Hn as <-; eexists; vm_compute; reflexivity))).
  exists 200, [Byte.x3c].
  split; [vm_compute; reflexivity | split; [lia | vm_compute; reflexivity]].
Defined.

(** Dependence of the response on the request and its environment *)

Lemma validated_urls (e : Env) (raw : list RawItem) (items : list Item) :
  validate_request e raw = Some items ->
  forall i, In i items -> exists r, In r raw /\ parse_http_url e (raw_url r) = Some (imageUrl i).
Proof.
  intros Hv. pose proof (validate_request_forall2 e raw items Hv) as HF.
  clear Hv. induction HF as [|r i rs is Hri HF IH]; simpl; [tauto|].
  intros x [<- | Hx].
  - exists r. split; [left; reflexivity|]. unfold validate_item in Hri.
    destruct (parse_http_url e (raw_url r)); [|discriminate].
    destruct (1 <=? List.length (raw_text r))%nat; [|discriminate].
    injection Hri as <-. reflexivity.
  - destruct (IH x Hx) as [r' [Hin Hp]]. exists r'. auto.
Qed.

(** Captions and surrounding whitespace *)

Lemma lstrip_spaces (ws s : list ascii) :
  Forall (fun a => is_space a = true) ws -> lstrip (ws ++ s) = lstrip s.
Proof.
  intros H. induction H as [|a ws Ha _ IH]; simpl; [reflexivity|]. rewrite Ha. exact IH.
Qed.

Lemma lstrip_all_spaces (ws : list ascii) :
  Forall (fun a => is_space a = true) ws -> lstrip ws = [].
Proof. intros H. rewrite <- (app_nil_r ws). rewrite lstrip_spaces by exact H. reflexivity. Qed.

Lemma lstrip_app (a b : list ascii) :
  lstrip (a ++ b) = match lstrip a with [] => lstrip b | r => r ++ b end.
Proof.
  induction a as [|c a IH]; simpl; [reflexivity|].
  destruct (is_space c); [exact IH | reflexivity].
Qed.

Lemma rstrip_spaces (s ws : list ascii) :
  Forall (fun a => is_space a = true) ws -> rstrip (s ++ ws) = rstrip s.
Proof.
  intros H. unfold rstrip. rewrite rev_app_distr, lstrip_spaces; [reflexivity|].
  apply Forall_rev. exact H.
Qed.

Lemma strip_padded (ws1 t ws2 : list ascii) :
  Forall (fun a => is_space a = true) ws1 ->
  Forall (fun a => is_space a = true) ws2 ->
  strip (ws1 ++ t ++ ws2) = strip t.
Proof.
  intros H1 H2. unfold strip. rewrite lstrip_spaces by exact H1.
  rewrite lstrip_app. destruct (lstrip t) as [|c r] eqn:Ht.
  - rewrite (lstrip_all_spaces ws2 H2). reflexivity.
  - apply rstrip_spaces. exact H2.
Qed.

Lemma validate_request_app (e : Env) (l1 l2 : list RawItem) :
  validate_request e (l1 ++ l2) =
  match validate_request e l1, validate_request e l2 with
  | Some a, Some b => Some (a ++ b)
  | _, _ => None
  end.
Proof.
  induction l1 as [|x l1 IH]; simpl.
  - destruct (validate_request e l2); reflexivity.
  - rewrite IH. destruct (validate_item e x), (validate_request e l1), (validate_request e l2);
      reflexivity.
Qed.

Lemma item_equiv_refl_list (l : list Item) : Forall2 item_equiv l l.
Proof. induction l; constructor; [split; reflexivity | assumption]. Qed.

Lemma combine_images_equiv (e : Env) (items1 items2 : list Item) :
  Forall2 item_equiv items1 items2 ->
  combine_images e items1 = combine_images e items2.
Proof.
  intros HF. unfold combine_images. rewrite (Forall2_length HF).
  assert (Hb : forall font, fetch_blocks e font items1 = fetch_blocks e font items2).
  { intros font. induction HF as [|i1 i2 l1 l2 [Hu Hs] _ IH]; simpl; [reflexivity|].
    unfold process_item. rewrite Hu, Hs, IH. reflexivity. }
  rewrite Hb. reflexivity.
Qed.

(** C10: padding the caption of one item of an accepted request with
    whitespace on either side leaves the response unchanged. *)
Theorem caption_padding_invariant (e : Env) (pre post : list RawItem) (it : RawItem)
  (ws1 ws2 : list ascii) :
  validate_request e (pre ++ it :: post) <> None ->
  Forall (fun a => is_space a = true) ws1 ->
  Forall (fun a => is_space a = true) ws2 ->
  endpoint e (pre ++ mkRawItem (raw_url it) (ws1 ++ raw_text it ++ ws2) :: post) =
  endpoint e (pre ++ it :: post).
Proof.
  intros Hv H1 H2. unfold endpoint. rewrite !validate_request_app in *.
  cbn [validate_request] in *.
  destruct (validate_request e pre) as [a|]; [|contradiction].
  destruct (validate_request e post) as [b|] eqn:Hpost;
    [|destruct (validate_item e it); contradiction].
  unfold validate_item in *. cbn [raw_url raw_text] in *.
  destruct (parse_http_url e (raw_url it)) as [u|]; [|contradiction].
  destruct (raw_text it) as [|c t] eqn:Ht; [contradiction|].
  replace (1 <=? List.length (ws1 ++ (c :: t) ++ ws2))%nat with true
    by (symmetry; apply Nat.leb_le; rewrite !length_app; simpl; lia).
  cbn. apply combine_images_equiv. apply Forall2_app; [apply item_equiv_refl_list|].
  constructor; [|apply item_equiv_refl_list].
  split; [reflexivity|]. simpl. exact (strip_padded ws1 (c :: t) ws2 H1 H2).
Qed.

Lemma caption_padding_invariant_witness :
  endpoint demo_env
    [mkRawItem "http://img.test/red.png" (list_ascii_of_string " " ++ hi ++ list_ascii_of_string "  ")] =
  endpoint demo_env [red_item].
Proof.
  apply (caption_padding_invariant demo_env [] [] red_item
           (list_ascii_of_string " ") (list_ascii_of_string "  "));
    [vm_compute; intros Hx; discriminate Hx | repeat constructor | repeat constructor].
Defined.

(** ** Further properties of the handler and its helpers *)

(** Which exceptions each step can raise *)

Lemma bind_err_inv {A B} (r : Result A) (k : A -> Result B) (s : Z) (d : string) :
  bind r k = RErr s d -> r = RErr s d \/ exists a, r = ROk a /\ k a = RErr s d.
Proof. destruct r; simpl; intros H; [eauto | injection H as -> ->; auto | discriminate]. Qed.

Ltac err_inv H :=
  let a := fresh "a" in let Ha := fresh "Ha" in
  apply bind_err_inv in H; destruct H as [H | [a [Ha H]]].

Lemma py_div_not_err (a b s : Z) (d : string) : py_div a b <> RErr s d.
Proof. unfold py_div. destruct (b =? 0); discriminate. Qed.

Lemma py_truediv_not_err (a b s : Z) (d : string) : py_truediv a b <> RErr s d.
Proof. unfold py_truediv. destruct (b =? 0); discriminate. Qed.

Lemma pil_new_not_err (m : Mode) (w h : Z) (c : Color) (s : Z) (d : string) :
  pil_new m w h c <> RErr s d.
Proof. unfold pil_new. destruct ((w <? 0) || (h <? 0)); discriminate. Qed.

Lemma pil_resize_eq (b : Bitmap) (bw bh w h : Z) (r : Resample) :
  size b = (bw, bh) ->
  pil_resize b w h r =
  if (bw =? w) && (bh =? h) then ROk b
  else if (w <? 1) || (h <? 1) then RCrash "ValueError: height and width must be > 0"
  else ROk (Resized b w h r).
Proof. intros Hs. unfold pil_resize. rewrite Hs. reflexivity. Qed.

Lemma pil_resize_not_err (b : Bitmap) (w h : Z) (r : Resample) (s : Z) (d : string) :
  pil_resize b w h r <> RErr s d.
Proof.
  destruct (size b) as [bw bh] eqn:Hs. rewrite (pil_resize_eq b bw bh w h r Hs).
  destruct ((bw =? w) && (bh =? h)); [discriminate|].
  destruct ((w <? 1) || (h <? 1)); discriminate.
Qed.

Lemma pil_resize_ok (b : Bitmap) (w h : Z) (r : Resample) :
  1 <= w -> 1 <= h -> exists b', pil_resize b w h r = ROk b'.
Proof.
  intros Hw Hh. destruct (size b) as [bw bh] eqn:Hs. rewrite (pil_resize_eq b bw bh w h r Hs).
  destruct ((bw =? w) && (bh =? h)); [eauto|].
  replace ((w <? 1) || (h <? 1)) with false
    by (symmetry; apply orb_false_iff; split; apply Z.ltb_ge; lia).
  eauto.
Qed.

Lemma contain_not_err (img : Bitmap) (sw sh s : Z) (d : string) :
  contain img sw sh <> RErr s d.
Proof.
  unfold contain. destruct (size img) as [w h]. intros H.
  err_inv H; [exact (py_div_not_err _ _ _ _ H)|].
  err_inv H; [exact (py_div_not_err _ _ _ _ H)|].
  err_inv H; [|exact (pil_resize_not_err _ _ _ _ _ _ H)].
  destruct (Qcompare a a0); [discriminate| |];
    err_inv H; solve [exact (py_div_not_err _ _ _ _ H) | discriminate H].
Qed.

Lemma render_text_image_not_err (e : Env) (t : list ascii) (font : Font) (s : Z) (d : string) :
  render_text_image e t font <> RErr s d.
Proof.
  unfold render_text_image. cbv zeta. destruct (strip t) as [|c rest]; [discriminate|].
  destruct (textbbox e font (c :: rest)) as [[[x0 y0] x1] y1]. intros H.
  err_inv H; [exact (pil_new_not_err _ _ _ _ _ _ H) | discriminate H].
Qed.

Lemma py_max_not_err (l : list Z) (s : Z) (d : string) : py_max l <> RErr s d.
Proof. destruct l; discriminate. Qed.

Lemma compose_grid_not_err (bs : list Block) (s : Z) (d : string) :
  compose_grid bs <> RErr s d.
Proof.
  unfold compose_grid. intros H.
  err_inv H; [exact (py_max_not_err _ _ _ H)|].
  err_inv H; [exact (py_max_not_err _ _ _ H)|].
  err_inv H; [exact (py_max_not_err _ _ _ H)|].
  cbv zeta in H. destruct (grid_shape (List.length bs)) as [cols rows].
  err_inv H; [exact (pil_new_not_err _ _ _ _ _ _ H) | discriminate H].
Qed.

Lemma finalize_not_err (c : Bitmap) (s : Z) (d : string) : finalize c <> RErr s d.
Proof.
  unfold finalize. destruct (size c) as [cw ch].
  destruct ((cw =? TARGET_WIDTH) && (ch =? TARGET_HEIGHT)); [discriminate|]. intros H.
  err_inv H; [exact (py_truediv_not_err _ _ _ _ H)|].
  err_inv H; [exact (py_truediv_not_err _ _ _ _ H)|].
  cbv zeta in H.
  err_inv H; [exact (pil_resize_not_err _ _ _ _ _ _ H)|].
  err_inv H; [exact (pil_new_not_err _ _ _ _ _ _ H) | discriminate H].
Qed.

Lemma fetch_image_err_iff (e : Env) (url : string) (s : Z) (d : string) :
  fetch_image e url = RErr s d <->
  s = 400 /\
  ((download_failed e url /\ d = String.append "Failed to download image: " url) \/
   (decode_failed e url /\ d = String.append "Invalid image content at: " url)).
Proof.
  split.
  - unfold fetch_image, download_failed, decode_failed.
    destruct (http_get e url) as [|st body] eqn:Hg.
    + intros H. injection H as <- <-. auto.
    + destruct ((200 <=? st) && (st <? 300)) eqn:E; simpl.
      * apply andb_true_iff in E as [E1 E2]. apply Z.leb_le in E1. apply Z.ltb_lt in E2.
        destruct (image_open e body) eqn:Ho; intros H; try discriminate H.
        injection H as <- <-. split; [reflexivity|]. right. split; [|reflexivity].
        exists st, body. split; [reflexivity|]. split; [lia | exact Ho].
      * intros H. injection H as <- <-. split; [reflexivity|]. left. split; [|reflexivity].
        intros [E1 E2]. apply andb_false_iff in E as [E|E];
          [apply Z.leb_gt in E | apply Z.ltb_ge in E]; lia.
  - intros [-> [[Hf ->] | [Hf ->]]];
      [apply fetch_image_download_failed | apply fetch_image_decode_failed]; exact Hf.
Qed.

Lemma process_item_err (e : Env) (font : Font) (it : Item) (s : Z) (d : string) :
  process_item e font it = RErr s d -> fetch_image e (imageUrl it) = RErr s d.
Proof.
  unfold process_item. intros H.
  err_inv H; [exact H|].
  err_inv H; [exfalso; exact (contain_not_err _ _ _ _ _ H)|].
  err_inv H; [exfalso; exact (render_text_image_not_err _ _ _ _ _ H)|].
  destruct a1 as [[ti tw] th]. discriminate H.
Qed.

Lemma fetch_blocks_err (e : Env) (font : Font) (items : list Item) (s : Z) (d : string) :
  fetch_blocks e font items = RErr s d ->
  exists it, In it items /\ process_item e font it = RErr s d.
Proof.
  induction items as [|it rest IH]; simpl; intros H; [discriminate H|].
  err_inv H; [exists it; auto|].
  err_inv H; [|discriminate H].
  destruct (IH H) as [it' [Hin Hp]]. exists it'. auto.
Qed.

(** The blocks built from the items *)

Lemma fetch_blocks_forall2 (e : Env) (font : Font) (items : list Item) (bs : list Block) :
  fetch_blocks e font items = ROk bs ->
  Forall2 (fun it b => process_item e font it = ROk b) items bs.
Proof.
  revert bs. induction items as [|it rest IH]; simpl; intros bs H.
  - injection H as <-. constructor.
  - ok_inv H. ok_inv H. injection H as <-. constructor; auto.
Qed.

Lemma lstrip_head (s : list ascii) :
  lstrip s = [] \/ exists c rest, lstrip s = c :: rest /\ is_space c = false.
Proof.
  induction s as [|c s IH]; simpl; [auto|].
  destruct (is_space c) eqn:Hc; [exact IH | right; eauto].
Qed.

Lemma lstrip_idem (s : list ascii) : lstrip (lstrip s) = lstrip s.
Proof.
  destruct (lstrip_head s) as [-> | [c [rest [-> Hc]]]]; simpl; [reflexivity|].
  rewrite Hc. reflexivity.
Qed.

Lemma rstrip_idem (s : list ascii) : rstrip (rstrip s) = rstrip s.
Proof. unfold rstrip. rewrite rev_involutive, lstrip_idem. reflexivity. Qed.

Lemma lstrip_rstrip (c : ascii) (rest : list ascii) :
  is_space c = false -> lstrip (rstrip (c :: rest)) = rstrip (c :: rest).
Proof.
  intros Hc. unfold rstrip. simpl. rewrite lstrip_app. simpl. rewrite Hc.
  destruct (lstrip (rev rest)) as [|x r]; simpl; [rewrite Hc; reflexivity|].
  rewrite rev_app_distr. simpl. rewrite Hc. reflexivity.
Qed.

Lemma strip_idem (s : list ascii) : strip (strip s) = strip s.
Proof.
  unfold strip. destruct (lstrip_head s) as [Hs | [c [rest [Hs Hc]]]]; rewrite Hs.
  - reflexivity.
  - rewrite lstrip_rstrip by exact Hc. apply rstrip_idem.
Qed.

Lemma render_text_image_size (e : Env) (t : list ascii) (font : Font)
  (ti : Bitmap) (tw th : Z) :
  render_text_image e t font = ROk (ti, tw, th) ->
  size ti = (tw, th) /\ 0 <= tw /\ 0 <= th.
Proof.
  unfold render_text_image. cbv zeta. destruct (strip t) as [|c rest].
  - intros H. injection H as <- <- <-. split; [reflexivity | lia].
  - destruct (textbbox e font (c :: rest)) as [[[x0 y0] x1] y1]. intros H.
    ok_inv H. unfold pil_new in Ha.
    destruct ((x1 - x0 <? 0) || (y1 - y0 <? 0)) eqn:E; [discriminate Ha|].
    apply orb_false_iff in E as [E1 E2]. apply Z.ltb_ge in E1, E2.
    injection Ha as <-. injection H as <- <- <-. split; [reflexivity | lia].
Qed.

Lemma contain_resizes (img r : Bitmap) (sw sh : Z) :
  contain img sw sh = ROk r -> exists w h, pil_resize img w h BICUBIC = ROk r.
Proof.
  unfold contain. destruct (size img) as [w h]. intros H.
  ok_inv H. ok_inv H. ok_inv H. eauto.
Qed.

(** A decoder that reports non-negative sizes makes every block non-negative. *)
Lemma process_item_nonneg (e : Env) (font : Font) (it : Item) (b : Block) :
  (forall body w h, image_open e body = Opened w h -> 0 <= w /\ 0 <= h) ->
  process_item e font it = ROk b ->
  0 <= width (blk_image b) /\ 0 <= height (blk_image b) /\
  0 <= blk_text_width b /\ 0 <= blk_text_height b.
Proof.
  intros Hdec H. unfold process_item in H.
  ok_inv H. ok_inv H. ok_inv H. destruct a1 as [[ti tw] th].
  injection H as <-. simpl.
  apply render_text_image_size in Ha1 as [_ [Htw Hth]].
  apply contain_resizes in Ha0 as [w [h Hr]].
  apply pil_resize_size in Hr as [Hsz [_ [-> | Hge]]].
  - unfold fetch_image in Ha. destruct (http_get e (imageUrl it)) as [|st body];
      [discriminate Ha|].
    destruct (negb ((200 <=? st) && (st <? 300))); [discriminate Ha|].
    destruct (image_open e body) as [w0 h0| |] eqn:Ho; try discriminate Ha.
    injection Ha as <-. apply Hdec in Ho. unfold width, height. simpl. lia.
  - unfold width, height. rewrite Hsz. simpl. lia.
Qed.

Lemma fetch_blocks_nonneg (e : Env) (font : Font) (items : list Item) (bs : list Block) :
  (forall body w h, image_open e body = Opened w h -> 0 <= w /\ 0 <= h) ->
  fetch_blocks e font items = ROk bs ->
  forall b, In b bs ->
    0 <= width (blk_image b) /\ 0 <= height (blk_image b) /\
    0 <= blk_text_width b /\ 0 <= blk_text_height b.
Proof.
  intros Hdec H. apply fetch_blocks_forall2 in H.
  induction H as [|it b items bs Hp _ IH]; simpl; [tauto|].
  intros x [<- | Hx]; [exact (process_item_nonneg e font it b Hdec Hp) | exact (IH x Hx)].
Qed.

(** Contain on the 1024x1024 box *)

Lemma py_round_div_mul (h d : Z) : 0 < d -> py_round_div (h * d) d = h.
Proof.
  intros Hd. unfold py_round_div. cbv zeta.
  rewrite Z.div_mul, Z.mod_mul by lia.
  replace (2 * 0 <? d) with true by (symmetry; apply Z.ltb_lt; lia). reflexivity.
Qed.

Lemma py_round_div_lt_1 (n d : Z) : 0 < d -> 0 <= n -> (py_round_div n d < 1 <-> 2 * n <= d).
Proof.
  intros Hd Hn. unfold py_round_div. cbv zeta.
  pose proof (Z.div_mod n d ltac:(lia)) as Hdm.
  pose proof (Z.mod_pos_bound n d Hd) as Hr.
  pose proof (Z.div_pos n d Hn Hd) as Hq.
  set (q := n / d) in *. set (r := n mod d) in *. clearbody q r.
  destruct (2 * r <? d) eqn:E1; [apply Z.ltb_lt in E1 | apply Z.ltb_ge in E1].
  - split; intros H.
    + assert (q = 0) by lia. subst q. lia.
    + destruct (Z.eq_dec q 0); [lia|]. nia.
  - destruct (d <? 2 * r) eqn:E2; [apply Z.ltb_lt in E2 | apply Z.ltb_ge in E2].
    + split; intros H; [lia | nia].
    + destruct (Z.even q) eqn:Ev.
      * split; intros H.
        -- assert (q = 0) by lia. subst q. lia.
        -- destruct (Z.eq_dec q 0); [lia|]. nia.
      * assert (Hq0 : q <> 0) by (intros ->; discriminate Ev).
        split; intros H; [lia | nia].
Qed.

Lemma contain_square_box (img : Bitmap) (w h : Z) :
  size img = (w, h) -> 0 < w -> 0 < h ->
  contain img max_image_edge max_image_edge =
  if h <=? w then pil_resize img max_image_edge (py_round_div (h * 1024) w) BICUBIC
  else pil_resize img (py_round_div (w * 1024) h) max_image_edge BICUBIC.
Proof.
  intros Hs Hw Hh. unfold contain. rewrite Hs.
  rewrite (py_div_ok w h) by lia.
  rewrite (py_div_ok max_image_edge max_image_edge) by (unfold max_image_edge; lia).
  cbn [bind]. rewrite ratio_compare_square by lia.
  destruct (w ?= h) eqn:C.
  - apply Z.compare_eq_iff in C; subst h. rewrite Z.leb_refl, py_round_div_self by lia.
    reflexivity.
  - assert (Hlt : w < h) by (apply Z.compare_lt_iff; exact C).
    replace (h <=? w) with false by (symmetry; apply Z.leb_gt; lia).
    cbn [bind]. rewrite ratio_times_edge by lia.
    destruct (Z.eqb_spec (py_round_div (w * 1024) h) max_image_edge) as [E|E];
      simpl; [rewrite E|]; reflexivity.
  - assert (Hgt : h < w) by (apply Z.compare_gt_iff in C; lia).
    replace (h <=? w) with true by (symmetry; apply Z.leb_le; lia).
    rewrite (py_div_ok h w) by lia.
    cbn [bind]. rewrite ratio_times_edge by lia.
    destruct (Z.eqb_spec (py_round_div (h * 1024) w) max_image_edge) as [E|E];
      simpl; [rewrite E|]; reflexivity.
Qed.

(** Composing and fitting never fail on well-formed blocks *)

Lemma py_max_nonneg_ok (l : list Z) :
  l <> [] -> Forall (fun x => 0 <= x) l -> exists m, py_max l = ROk m /\ 0 <= m.
Proof.
  intros Hne HF. destruct l as [|x rest]; [contradiction|].
  exists (fold_left Z.max rest x). split; [reflexivity|].
  destruct (fold_max_spec rest x) as [Hin _].
  rewrite Forall_forall in HF. apply HF. exact Hin.
Qed.

Lemma grid_shape_range (n : nat) :
  1 <= fst (grid_shape n) <= 2 /\ 1 <= snd (grid_shape n) <= 2.
Proof. unfold grid_shape. destruct (n =? 1)%nat; [|destruct (n =? 2)%nat]; simpl; lia. Qed.

Lemma size_place_block (cw ch : Z) (k : nat) (b : Block) (c : Bitmap) :
  size (place_block cw ch k b c) = size c.
Proof. reflexivity. Qed.

Lemma size_place_blocks (cw ch : Z) (k : nat) (bs : list Block) (c : Bitmap) :
  size (place_blocks cw ch k bs c) = size c.
Proof.
  revert k c. induction bs as [|b bs IH]; intros k c; simpl; [reflexivity|].
  rewrite IH. apply size_place_block.
Qed.

Lemma compose_grid_ok (bs : list Block) :
  bs <> [] ->
  (forall b, In b bs ->
     0 <= width (blk_image b) /\ 0 <= height (blk_image b) /\
     0 <= blk_text_width b /\ 0 <= blk_text_height b) ->
  exists c, compose_grid bs = ROk c /\
    2 * padding <= width c /\ 2 * padding + text_to_image_spacing <= height c.
Proof.
  intros Hne Hnn. rewrite <- Forall_forall in Hnn.
  assert (Hmap : forall f : Block -> Z, map f bs <> []).
  { intros f. destruct bs; [contradiction | discriminate]. }
  destruct (py_max_nonneg_ok (map (fun b => Z.max (width (blk_image b)) (blk_text_width b)) bs)
              (Hmap _)) as [m1 [H1 P1]].
  { apply Forall_map. eapply Forall_impl; [|exact Hnn]. simpl. intros b Hb. lia. }
  destruct (py_max_nonneg_ok (map (fun b => height (blk_image b)) bs) (Hmap _))
    as [m2 [H2 P2]].
  { apply Forall_map. eapply Forall_impl; [|exact Hnn]. simpl. intros b Hb. lia. }
  destruct (py_max_nonneg_ok (map blk_text_height bs) (Hmap _)) as [m3 [H3 P3]].
  { apply Forall_map. eapply Forall_impl; [|exact Hnn]. simpl. intros b Hb. lia. }
  unfold compose_grid. rewrite H1, H2, H3. cbn [bind]. cbv zeta.
  pose proof (grid_shape_range (List.length bs)) as Hg.
  destruct (grid_shape (List.length bs)) as [cols rows]. simpl in Hg.
  unfold pil_new, padding, text_to_image_spacing in *.
  replace ((m1 + 2 * 24) * cols <? 0) with false by (symmetry; apply Z.ltb_ge; nia).
  replace ((m2 + m3 + 8 + 2 * 24) * rows <? 0) with false by (symmetry; apply Z.ltb_ge; nia).
  cbn [orb bind]. eexists. split; [reflexivity|].
  unfold width, height. rewrite size_place_blocks. simpl. nia.
Qed.

Lemma finalize_ok (c : Bitmap) (W H : Z) :
  size c = (W, H) -> W <> 0 -> H <> 0 -> exists f, finalize c = ROk f.
Proof.
  intros Hs HW HH. unfold finalize. rewrite Hs.
  destruct ((W =? TARGET_WIDTH) && (H =? TARGET_HEIGHT)); [eauto|].
  rewrite (py_truediv_ok TARGET_WIDTH W HW), (py_truediv_ok TARGET_HEIGHT H HH).
  cbn [bind]. cbv zeta.
  match goal with
  | |- context [pil_resize c ?sw ?sh LANCZOS] =>
      destruct (pil_resize_ok c sw sh LANCZOS ltac:(lia) ltac:(lia)) as [r Hr]; rewrite Hr
  end.
  cbn [bind]. unfold pil_new. simpl. eauto.
Qed.

(** Where [place_blocks] pastes each block *)

Lemma nth_error_app_length {A} (l r : list A) (n : nat) :
  nth_error (l ++ r) (List.length l + n) = nth_error r n.
Proof. induction l as [|x l IH]; simpl; [reflexivity | exact IH]. Qed.

Section PlaceBlocks.

Variables cell_width cell_height : Z.
Variable P : nat -> Block -> Z -> Z -> Z -> Z -> Prop.
Hypothesis place_block_pastes : forall k b c, exists tx ty ix iy,
  pastes (place_block cell_width cell_height k b c) =
    pastes c ++ [(blk_text_image b, tx, ty); (blk_image b, ix, iy)] /\
  P k b tx ty ix iy.

Lemma place_blocks_prefix (bs : list Block) : forall k c,
  exists rest, pastes (place_blocks cell_width cell_height k bs c) = pastes c ++ rest.
Proof.
  induction bs as [|b bs IH]; intros k c; simpl.
  - exists []. rewrite app_nil_r. reflexivity.
  - destruct (place_block_pastes k b c) as [tx [ty [ix [iy [Hp _]]]]].
    destruct (IH (S k) (place_block cell_width cell_height k b c)) as [rest Hr].
    rewrite Hr, Hp, <- app_assoc. eauto.
Qed.

Lemma place_blocks_nth (bs : list Block) : forall k c i b,
  nth_error bs i = Some b ->
  exists tx ty ix iy,
    nth_error (pastes (place_blocks cell_width cell_height k bs c))
      (List.length (pastes c) + 2 * i) = Some (blk_text_image b, tx, ty) /\
    nth_error (pastes (place_blocks cell_width cell_height k bs c))
      (List.length (pastes c) + 2 * i + 1) = Some (blk_image b, ix, iy) /\
    P (k + i) b tx ty ix iy.
Proof.
  induction bs as [|b0 bs IH]; intros k c i b Hi; [destruct i; discriminate Hi|].
  cbn [place_blocks]. destruct (place_block_pastes k b0 c) as [tx [ty [ix [iy [Hp HP]]]]].
  set (c1 := place_block cell_width cell_height k b0 c) in *.
  destruct i as [|i]; simpl in Hi.
  - injection Hi as <-. destruct (place_blocks_prefix bs (S k) c1) as [rest Hr].
    exists tx, ty, ix, iy. rewrite Hr, Hp, <- app_assoc.
    rewrite <- Nat.add_assoc, !nth_error_app_length. simpl. rewrite Nat.add_0_r. auto.
  - destruct (IH (S k) c1 i b Hi) as [tx' [ty' [ix' [iy' [H1 [H2 H3]]]]]].
    rewrite Hp, length_app in H1, H2. cbn [List.length] in H1, H2.
    exists tx', ty', ix', iy'.
    replace (List.length (pastes c) + 2 * S i)%nat
      with (List.length (pastes c) + 2 + 2 * i)%nat by lia.
    replace (k + S i)%nat with (S k + i)%nat by lia. auto.
Qed.

End PlaceBlocks.

Lemma place_block_centred (cw ch : Z) (k : nat) (b : Block) (c : Bitmap) :
  exists tx ty ix iy,
    pastes (place_block cw ch k b c) =
      pastes c ++ [(blk_text_image b, tx, ty); (blk_image b, ix, iy)] /\
    centred cw ch k b tx ty ix iy.
Proof.
  unfold place_block, draw_border, centred, cell_origin. simpl.
  do 4 eexists. split; [rewrite <- app_assoc; reflexivity|].
  unfold padding, text_to_image_spacing.
  set (x0 := Z.of_nat k mod 2 * cw). set (y0 := Z.of_nat k / 2 * ch).
  set (iw := width (blk_image b)). set (ih := height (blk_image b)).
  set (tw := blk_text_width b). set (th := blk_text_height b).
  set (m := Z.max iw tw). clearbody x0 y0 iw ih tw th m.
  pose proof (Z.div_mod (cw - (m + 48)) 2 ltac:(lia)).
  pose proof (Z.mod_pos_bound (cw - (m + 48)) 2 ltac:(lia)).
  pose proof (Z.div_mod (m + 48 - tw) 2 ltac:(lia)).
  pose proof (Z.mod_pos_bound (m + 48 - tw) 2 ltac:(lia)).
  pose proof (Z.div_mod (m + 48 - iw) 2 ltac:(lia)).
  pose proof (Z.mod_pos_bound (m + 48 - iw) 2 ltac:(lia)).
  pose proof (Z.div_mod (ch - (th + 8 + ih + 48)) 2 ltac:(lia)).
  pose proof (Z.mod_pos_bound (ch - (th + 8 + ih + 48)) 2 ltac:(lia)).
  repeat split; lia.
Qed.

(** Distinct cells do not overlap *)

Lemma cells_apart (cw ch : Z) (i j : nat) (x1 y1 w1 h1 x2 y2 w2 h2 : Z) :
  0 <= cw -> 0 <= ch -> i <> j ->
  Z.of_nat i mod 2 * cw <= x1 -> x1 + w1 <= Z.of_nat i mod 2 * cw + cw ->
  Z.of_nat i / 2 * ch <= y1 -> y1 + h1 <= Z.of_nat i / 2 * ch + ch ->
  Z.of_nat j mod 2 * cw <= x2 -> x2 + w2 <= Z.of_nat j mod 2 * cw + cw ->
  Z.of_nat j / 2 * ch <= y2 -> y2 + h2 <= Z.of_nat j / 2 * ch + ch ->
  disjoint_boxes x1 y1 w1 h1 x2 y2 w2 h2.
Proof.
  intros Hcw Hch Hij Hx1 Hx1' Hy1 Hy1' Hx2 Hx2' Hy2 Hy2'. unfold disjoint_boxes.
  pose proof (Z.div_mod (Z.of_nat i) 2 ltac:(lia)) as Di.
  pose proof (Z.mod_pos_bound (Z.of_nat i) 2 ltac:(lia)) as Mi.
  pose proof (Z.div_mod (Z.of_nat j) 2 ltac:(lia)) as Dj.
  pose proof (Z.mod_pos_bound (Z.of_nat j) 2 ltac:(lia)) as Mj.
  assert (Hne : Z.of_nat i <> Z.of_nat j) by lia.
  set (ai := Z.of_nat i mod 2) in *. set (aj := Z.of_nat j mod 2) in *.
  set (qi := Z.of_nat i / 2) in *. set (qj := Z.of_nat j / 2) in *.
  clearbody ai aj qi qj.
  destruct (Z.eq_dec ai aj) as [Ea|Ea].
  - assert (Hq : qi <> qj) by lia.
    destruct (Z.lt_total qi qj) as [Hlt | [Heq | Hgt]]; [| contradiction |].
    + assert (qi * ch + ch <= qj * ch) by nia. right; right; left. lia.
    + assert (qj * ch + ch <= qi * ch) by nia. right; right; right. lia.
  - assert (Ha : (ai = 0 /\ aj = 1) \/ (ai = 1 /\ aj = 0)) by lia.
    destruct Ha as [[-> ->] | [-> ->]]; [left | right; left]; lia.
Qed.

(** The demo decoder reports positive sizes. *)
Lemma demo_image_open_nonneg (body : list Byte.byte) (w h : Z) :
  image_open demo_env body = Opened w h -> 0 <= w /\ 0 <= h.
Proof.
  simpl. unfold demo_image_open. intros H.
  destruct body as [|x [|y rest]]; try discriminate H;
    destruct x; try discriminate H; injection H as <- <-; lia.
Qed.

(** ** Further properties *)

(** X1: [get_font] returns the first of its four candidate paths (the bundled
    bold and regular DejaVu fonts, then the same names looked up by the font
    engine) that [ImageFont.truetype] loads, at the requested size; it falls
    back to the default font exactly when none of them loads. *)
Theorem get_font_first_loadable (e : Env) (sz : Z) :
  (forall c sz', get_font e sz = TrueType c sz' ->
     sz' = sz /\ truetype_loads e c sz = true /\
     exists pre post, font_candidates e = pre ++ c :: post /\
       Forall (fun p => truetype_loads e p sz = false) pre) /\
  (get_font e sz = DefaultFont <->
   Forall (fun p => truetype_loads e p sz = false) (font_candidates e)).
Proof.
  unfold get_font. induction (font_candidates e) as [|p rest [IH1 IH2]]; simpl.
  - split; [intros c sz' H; discriminate H|]. split; intros _; [constructor | reflexivity].
  - destruct (truetype_loads e p sz) eqn:Hp.
    + split.
      * intros c sz' H. injection H as <- <-. split; [reflexivity|]. split; [exact Hp|].
        exists [], rest. split; [reflexivity | constructor].
      * split; [intros H; discriminate H|]. intros HF. inversion HF; congruence.
    + split.
      * intros c sz' H. destruct (IH1 c sz' H) as [-> [Hc [pre [post [-> HF]]]]].
        split; [reflexivity|]. split; [exact Hc|].
        exists (p :: pre), post. split; [reflexivity | constructor; assumption].
      * rewrite IH2. split; [intros HF; constructor; assumption | intros HF; inversion HF; assumption].
Qed.

Lemma get_font_first_loadable_witness :
  get_font demo_env 60 = TrueType "DejaVuSans.ttf" 60 /\
  exists pre post, font_candidates demo_env = pre ++ "DejaVuSans.ttf" :: post /\
    Forall (fun p => truetype_loads demo_env p 60 = false) pre.
Proof.
  split; [vm_compute; reflexivity|].
  destruct (proj1 (get_font_first_loadable demo_env 60) "DejaVuSans.ttf" 60
              ltac:(vm_compute; reflexivity)) as [_ [_ H]].
  exact H.
Defined.

(** X4: containing a w x h image (both positive) in 1024x1024 raises Pillow's
    [ValueError] exactly when the image is at least 2048 times longer than it
    is wide (or wide than long): the short side then rounds to 0 pixels.  Any
    less extreme image is contained without error. *)
Theorem contain_extreme_ratio (img : Bitmap) (w h : Z) :
  size img = (w, h) -> 0 < w -> 0 < h ->
  ((2048 * h <= w \/ 2048 * w <= h) ->
   contain img max_image_edge max_image_edge =
     RCrash "ValueError: height and width must be > 0") /\
  (w < 2048 * h -> h < 2048 * w ->
   exists r, contain img max_image_edge max_image_edge = ROk r).
Proof.
  intros Hs Hw Hh. rewrite (contain_square_box img w h Hs Hw Hh).
  destruct (Z.leb_spec h w) as [Hle|Hgt].
  - rewrite (pil_resize_eq img w h) by exact Hs.
    pose proof (py_round_div_lt_1 (h * 1024) w Hw ltac:(lia)) as Hz.
    pose proof (py_round_div_nonneg (h * 1024) w Hw ltac:(lia)) as Hn.
    set (nh := py_round_div (h * 1024) w) in *. clearbody nh.
    unfold max_image_edge. split.
    + intros [C|C]; [|nia].
      replace ((w =? 1024) && (h =? nh)) with false
        by (symmetry; apply andb_false_iff; right; apply Z.eqb_neq; lia).
      replace ((1024 <? 1) || (nh <? 1)) with true
        by (symmetry; apply orb_true_iff; right; apply Z.ltb_lt; lia).
      reflexivity.
    + intros C1 C2. destruct ((w =? 1024) && (h =? nh)); [eauto|].
      replace ((1024 <? 1) || (nh <? 1)) with false
        by (symmetry; apply orb_false_iff; split; apply Z.ltb_ge; lia).
      eauto.
  - rewrite (pil_resize_eq img w h) by exact Hs.
    pose proof (py_round_div_lt_1 (w * 1024) h Hh ltac:(lia)) as Hz.
    pose proof (py_round_div_nonneg (w * 1024) h Hh ltac:(lia)) as Hn.
    set (nw := py_round_div (w * 1024) h) in *. clearbody nw.
    unfold max_image_edge. split.
    + intros [C|C]; [nia|].
      replace ((w =? nw) && (h =? 1024)) with false
        by (symmetry; apply andb_false_iff; left; apply Z.eqb_neq; lia).
      replace ((nw <? 1) || (1024 <? 1)) with true
        by (symmetry; apply orb_true_iff; left; apply Z.ltb_lt; lia).
      reflexivity.
    + intros C1 C2. destruct ((w =? nw) && (h =? 1024)); [eauto|].
      replace ((nw <? 1) || (1024 <? 1)) with false
        by (symmetry; apply orb_false_iff; split; apply Z.ltb_ge; lia).
      eauto.
Qed.

Lemma contain_extreme_ratio_witness :
  contain (Convert RGBA (Decoded [Byte.x02] 4096 1)) max_image_edge max_image_edge
    = RCrash "ValueError: height and width must be > 0" /\
  exists r, contain (Convert RGBA (Decoded [Byte.x02] 2047 1)) max_image_edge max_image_edge
    = ROk r.
Proof.
  split.
  - apply (proj1 (contain_extreme_ratio (Convert RGBA (Decoded [Byte.x02] 4096 1)) 4096 1
                    eq_refl ltac:(lia) ltac:(lia))). lia.
  - apply (proj2 (contain_extreme_ratio (Convert RGBA (Decoded [Byte.x02] 2047 1)) 2047 1
                    eq_refl ltac:(lia) ltac:(lia))); lia.
Defined.

(** X5: an image whose longer side is already exactly 1024 comes out of the
    resize step as it is: [contain] asks for its own size, so Pillow returns a
    copy without resampling. *)
Theorem contain_keeps_fitted_image (img : Bitmap) (w h : Z) :
  size img = (w, h) -> 0 < w -> 0 < h -> Z.max w h = max_image_edge ->
  contain img max_image_edge max_image_edge = ROk img.
Proof.
  intros Hs Hw Hh Hm. rewrite (contain_square_box img w h Hs Hw Hh).
  rewrite !(pil_resize_eq img w h) by exact Hs. unfold max_image_edge in *.
  destruct (Z.leb_spec h w).
  - assert (w = 1024) by lia. subst w. rewrite py_round_div_mul by lia.
    rewrite !Z.eqb_refl. reflexivity.
  - assert (h = 1024) by lia. subst h. rewrite py_round_div_mul by lia.
    rewrite !Z.eqb_refl. reflexivity.
Qed.

Lemma contain_keeps_fitted_image_witness :
  contain (Convert RGBA (Decoded [Byte.x01] 1024 300)) max_image_edge max_image_edge
  = ROk (Convert RGBA (Decoded [Byte.x01] 1024 300)).
Proof.
  apply (contain_keeps_fitted_image (Convert RGBA (Decoded [Byte.x01] 1024 300)) 1024 300
           eq_refl); [lia | lia | reflexivity].
Defined.

(** X6: a block built for an item holds the contained downloaded image and the
    caption rendered from the item's text (stripping it before the call, as
    [combine_images] does, changes nothing); the recorded caption width and
    height are the caption image's own size and are never negative. *)
Theorem process_item_block (e : Env) (font : Font) (it : Item) (b : Block) :
  process_item e font it = ROk b ->
  (exists img, fetch_image e (imageUrl it) = ROk img /\
     contain img max_image_edge max_image_edge = ROk (blk_image b)) /\
  render_text_image e (text it) font =
    ROk (blk_text_image b, blk_text_width b, blk_text_height b) /\
  size (blk_text_image b) = (blk_text_width b, blk_text_height b) /\
  0 <= blk_text_width b /\ 0 <= blk_text_height b.
Proof.
  unfold process_item. intros H.
  ok_inv H. ok_inv H. ok_inv H. destruct a1 as [[ti tw] th].
  injection H as <-. simpl.
  assert (Hr : render_text_image e (text it) font = ROk (ti, tw, th)).
  { rewrite <- Ha1. unfold render_text_image. rewrite strip_idem. reflexivity. }
  split; [eauto|]. split; [exact Hr|].
  exact (render_text_image_size e (text it) font ti tw th Hr).
Qed.

Lemma process_item_block_witness :
  size (TextDrawn (New RGBA 68 44 Transparent) (-2) (-14) hi Black DefaultFont) = (68, 44).
Proof.
  destruct (process_item_block demo_env DefaultFont (mkItem "http://img.test/red.png" hi)
    (mkBlock (Resized (Convert RGBA (Decoded [Byte.x01] 200 100)) 1024 512 BICUBIC)
       (TextDrawn (New RGBA 68 44 Transparent) (-2) (-14) hi Black DefaultFont) 68 44)
    ltac:(vm_compute; reflexivity)) as [_ [_ [Hs _]]].
  exact Hs.
Defined.

(** X7: composing the grid crashes with Python's [max()] [ValueError] on an
    empty list of blocks; on any non-empty list of blocks with non-negative
    measurements it succeeds, with a canvas at least 48 pixels wide and 56
    high (the padding and the caption gap of one cell). *)
Theorem compose_grid_outcome (bs : list Block) :
  (forall b, In b bs ->
     0 <= width (blk_image b) /\ 0 <= height (blk_image b) /\
     0 <= blk_text_width b /\ 0 <= blk_text_height b) ->
  (bs = [] -> compose_grid bs = RCrash "ValueError: max() arg is an empty sequence") /\
  (bs <> [] -> exists c, compose_grid bs = ROk c /\
     2 * padding <= width c /\ 2 * padding + text_to_image_spacing <= height c).
Proof.
  intros Hnn. split.
  - intros ->. reflexivity.
  - intros Hne. exact (compose_grid_ok bs Hne Hnn).
Qed.

Lemma compose_grid_outcome_witness :
  compose_grid [] = RCrash "ValueError: max() arg is an empty sequence" /\
  exists c, compose_grid demo_blocks3 = ROk c /\
    2 * padding <= width c /\ 2 * padding + text_to_image_spacing <= height c.
Proof.
  split.
  - apply (proj1 (compose_grid_outcome [] ltac:(intros b Hb; destruct Hb))). reflexivity.
  - apply (proj2 (compose_grid_outcome demo_blocks3
            ltac:(intros b [<- | [<- | [<- | []]]]; vm_compute; repeat split; discriminate))).
    discriminate.
Defined.

(** X8: fitting a canvas to 2560x1408 fails only when the canvas has a side of
    0 pixels, with a [ZeroDivisionError]; a canvas whose sides are non-zero is
    always fitted, since each scaled side is clamped to at least 1. *)
Theorem finalize_fails_only_on_empty_side (c : Bitmap) (W H : Z) :
  size c = (W, H) ->
  (W <> 0 -> H <> 0 -> exists f, finalize c = ROk f) /\
  (W = 0 \/ H = 0 -> finalize c = RCrash "ZeroDivisionError").
Proof.
  intros Hs. split; [exact (finalize_ok c W H Hs)|].
  unfold finalize. rewrite Hs. intros [-> | ->]; [reflexivity|].
  replace (0 =? TARGET_HEIGHT) with false by reflexivity. rewrite andb_false_r.
  unfold py_truediv. destruct (W =? 0); reflexivity.
Qed.

Lemma finalize_fails_only_on_empty_side_witness :
  (exists f, finalize (New RGB 1072 612 White) = ROk f) /\
  finalize (New RGB 300 0 White) = RCrash "ZeroDivisionError".
Proof.
  split.
  - apply (proj1 (finalize_fails_only_on_empty_side (New RGB 1072 612 White) 1072 612 eq_refl));
      discriminate.
  - apply (proj2 (finalize_fails_only_on_empty_side (New RGB 300 0 White) 300 0 eq_refl)).
    right; reflexivity.
Defined.

(** X9: for 1 to 4 items and a decoder that reports non-negative sizes, the
    handler fails only where building the blocks fails, and then with that
    same error; once every item has been fetched, contained and captioned,
    the layout, the fitting and the encoding always succeed. *)
Theorem combine_images_fails_only_on_items (e : Env) (items : list Item) :
  (forall body w h, image_open e body = Opened w h -> 0 <= w /\ 0 <= h) ->
  (1 <= List.length items <= 4)%nat ->
  match fetch_blocks e (get_font e 60) items with
  | ROk _ => exists r, combine_images e items = ROk r
  | RErr s d => combine_images e items = RErr s d
  | RCrash x => combine_images e items = RCrash x
  end.
Proof.
  intros Hdec Hlen. unfold combine_images.
  replace ((1 <=? List.length items) && (List.length items <=? 4))%nat with true
    by (symmetry; apply andb_true_iff; split; apply Nat.leb_le; lia).
  cbn [negb]. cbv zeta.
  destruct (fetch_blocks e (get_font e 60) items) as [bs|s d|x] eqn:Hf;
    cbn [bind]; try reflexivity.
  assert (Hne : bs <> []).
  { intros ->. apply fetch_blocks_forall2 in Hf. inversion Hf; subst. simpl in Hlen. lia. }
  destruct (compose_grid_ok bs Hne (fetch_blocks_nonneg e _ items bs Hdec Hf))
    as [c [Hc [Hw Hh]]].
  rewrite Hc. cbn [bind].
  destruct (size c) as [W H] eqn:Hs. unfold width, height, padding, text_to_image_spacing in *.
  rewrite Hs in Hw, Hh. simpl in Hw, Hh.
  destruct (finalize_ok c W H Hs ltac:(lia) ltac:(lia)) as [f Hfin].
  rewrite Hfin. cbn [bind]. eauto.
Qed.

Lemma combine_images_fails_only_on_items_witness :
  exists r, combine_images demo_env [mkItem "http://img.test/red.png" hi] = ROk r.
Proof.
  exact (combine_images_fails_only_on_items demo_env [mkItem "http://img.test/red.png" hi]
           demo_image_open_nonneg ltac:(simpl; lia)).
Defined.

(** X10: every error [POST /combine] answers through an [HTTPException] or
    FastAPI's request validation (an unhandled exception, which the server
    answers with 500, is not one of them) is one of: 422 for a body the
    request model refuses; 400 "Provide between 1 and 4 items." for a count
    of 0 or more than 4; 400 naming the parsed URL of one of the request's
    items, "Failed to download image: <url>" when its download failed or
    "Invalid image content at: <url>" when its body could not be opened. *)
Theorem endpoint_http_errors (e : Env) (raw : list RawItem) (s : Z) (d : string) :
  endpoint e raw = RErr s d ->
  (s = 422 /\ validate_request e raw = None) \/
  (s = 400 /\ d = "Provide between 1 and 4 items." /\
     (List.length raw = 0 \/ 4 < List.length raw)%nat) \/
  (s = 400 /\ exists it u, In it raw /\ parse_http_url e (raw_url it) = Some u /\
     ((download_failed e u /\ d = String.append "Failed to download image: " u) \/
      (decode_failed e u /\ d = String.append "Invalid image content at: " u))).
Proof.
  unfold endpoint. destruct (validate_request e raw) as [items|] eqn:Hv.
  - pose proof (Forall2_length (validate_request_forall2 e raw items Hv)) as Hl.
    unfold combine_images.
    destruct ((1 <=? List.length items) && (List.length items <=? 4))%nat eqn:E;
      cbn [negb].
    + cbv zeta. intros H.
      err_inv H.
      * apply fetch_blocks_err in H as [it [Hin Hp]].
        apply process_item_err, fetch_image_err_iff in Hp as [-> Hd].
        destruct (validated_urls e raw items Hv it Hin) as [r [Hr Hu]].
        right; right. split; [reflexivity|]. exists r, (imageUrl it). auto.
      * err_inv H; [exfalso; exact (compose_grid_not_err _ _ _ H)|].
        err_inv H; [exfalso; exact (finalize_not_err _ _ _ H) | discriminate H].
    + intros H. injection H as <- <-. right; left. split; [reflexivity|]. split; [reflexivity|].
      rewrite Hl. apply andb_false_iff in E as [E|E]; apply Nat.leb_gt in E; lia.
  - intros H. injection H as <- _. left. auto.
Qed.

Lemma endpoint_http_errors_witness :
  (400 = 422 /\ validate_request demo_env [page_item] = None) \/
  (400 = 400 /\ "Invalid image content at: http://img.test/page.html" =
     "Provide between 1 and 4 items." /\
     (List.length [page_item] = 0 \/ 4 < List.length [page_item])%nat) \/
  (400 = 400 /\ exists it u, In it [page_item] /\ parse_http_url demo_env (raw_url it) = Some u /\
     ((download_failed demo_env u /\
         "Invalid image content at: http://img.test/page.html" =
         String.append "Failed to download image: " u) \/
      (decode_failed demo_env u /\
         "Invalid image content at: http://img.test/page.html" =
         String.append "Invalid image content at: " u))).
Proof.
  exact (endpoint_http_errors demo_env [page_item] 400
           "Invalid image content at: http://img.test/page.html"
           ltac:(vm_compute; reflexivity)).
Defined.

(** X11: on the composed canvas, every block is centred in its grid cell: the
    caption and the image are each centred across the cell to within 2 pixels
    (the right margin exceeds the left one by 0, 1 or 2), and the stack of
    caption, gap and image is centred down the cell to within 1 pixel. *)
Theorem compose_grid_centres_blocks (bs : list Block) (c : Bitmap) :
  compose_grid bs = ROk c ->
  exists cell_width cell_height cols rows,
    grid_shape (List.length bs) = (cols, rows) /\
    size c = (cell_width * cols, cell_height * rows) /\
    forall i b, nth_error bs i = Some b ->
      exists tx ty ix iy,
        nth_error (pastes c) (2 * i) = Some (blk_text_image b, tx, ty) /\
        nth_error (pastes c) (2 * i + 1) = Some (blk_image b, ix, iy) /\
        centred cell_width cell_height i b tx ty ix iy.
Proof.
  intros H. apply compose_grid_inv in H
    as [mcw [mih [mth [cols [rows [_ [_ [_ [Hg Hc]]]]]]]]].
  cbv zeta in Hc. subst c.
  set (cw := mcw + 2 * padding). set (ch := mih + mth + text_to_image_spacing + 2 * padding).
  exists cw, ch, cols, rows. split; [exact Hg|].
  split; [rewrite size_place_blocks; reflexivity|].
  intros i b Hi.
  exact (place_blocks_nth cw ch (centred cw ch) (place_block_centred cw ch)
           bs 0 (New RGB (cw * cols) (ch * rows) White) i b Hi).
Qed.

Lemma compose_grid_centres_blocks_witness :
  exists cell_width cell_height cols rows,
    grid_shape 3 = (cols, rows) /\
    size demo_canvas3 = (cell_width * cols, cell_height * rows).
Proof.
  destruct (compose_grid_centres_blocks demo_blocks3 demo_canvas3 ltac:(vm_compute; reflexivity))
    as [cw [ch [cols [rows [Hg [Hs _]]]]]].
  exists cw, ch, cols, rows. split; [exact Hg | exact Hs].
Defined.

(** X12: on the composed canvas of blocks with non-negative measurements, the
    caption and image of one block never overlap the caption or image of
    another block: each block stays in its own grid cell. *)
Theorem compose_grid_blocks_apart (bs : list Block) (c : Bitmap) :
  (forall b, In b bs ->
     0 <= width (blk_image b) /\ 0 <= height (blk_image b) /\
     0 <= blk_text_width b /\ 0 <= blk_text_height b) ->
  compose_grid bs = ROk c ->
  forall i j bi bj, i <> j -> nth_error bs i = Some bi -> nth_error bs j = Some bj ->
  exists txi tyi ixi iyi txj tyj ixj iyj,
    nth_error (pastes c) (2 * i) = Some (blk_text_image bi, txi, tyi) /\
    nth_error (pastes c) (2 * i + 1) = Some (blk_image bi, ixi, iyi) /\
    nth_error (pastes c) (2 * j) = Some (blk_text_image bj, txj, tyj) /\
    nth_error (pastes c) (2 * j + 1) = Some (blk_image bj, ixj, iyj) /\
    boxes_apart (block_boxes bi txi tyi ixi iyi) (block_boxes bj txj tyj ixj iyj).
Proof.
  intros Hnn H i j bi bj Hij Hi Hj. apply compose_grid_inv in H
    as [mcw [mih [mth [cols [rows [Hw [Hh [Ht [Hg Hc]]]]]]]]].
  pose proof (blocks_fit bs mcw mih mth Hnn Hw Hh Ht) as Hfit.
  cbv zeta in Hc. subst c.
  set (cw := mcw + 2 * padding) in *.
  set (ch := mih + mth + text_to_image_spacing + 2 * padding) in *.
  destruct (place_blocks_spec cw ch bs Hfit 0 (New RGB (cw * cols) (ch * rows) White))
    as [_ [_ [_ [_ Hnth]]]].
  destruct (Hnth i bi Hi) as [txi [tyi [ixi [iyi [Hti [Hii Ci]]]]]].
  destruct (Hnth j bj Hj) as [txj [tyj [ixj [iyj [Htj [Hij' Cj]]]]]].
  simpl in Hti, Hii, Htj, Hij', Ci, Cj.
  exists txi, tyi, ixi, iyi, txj, tyj, ixj, iyj.
  split; [exact Hti|]. split; [exact Hii|]. split; [exact Htj|]. split; [exact Hij'|].
  assert (Fi : fits cw ch bi) by (rewrite Forall_forall in Hfit; apply Hfit;
                                   eapply nth_error_In; exact Hi).
  destruct Fi as (Fiw & Fih & Ftw & Fth & Fw & Fh).
  unfold padding, text_to_image_spacing in *.
  assert (Hcw : 0 <= cw) by lia. assert (Hch : 0 <= ch) by lia.
  unfold in_cell, cell_origin in Ci, Cj.
  intros p q Hp Hq. unfold block_boxes in Hp, Hq.
  destruct Hp as [<- | [<- | []]]; destruct Hq as [<- | [<- | []]];
    apply (cells_apart cw ch i j); tauto.
Qed.

Lemma compose_grid_blocks_apart_witness :
  exists txi tyi ixi iyi txj tyj ixj iyj,
    nth_error (pastes demo_canvas3) 0 = Some (blk_text_image demo_block, txi, tyi) /\
    nth_error (pastes demo_canvas3) 1 = Some (blk_image demo_block, ixi, iyi) /\
    nth_error (pastes demo_canvas3) 4 = Some (blk_text_image demo_block, txj, tyj) /\
    nth_error (pastes demo_canvas3) 5 = Some (blk_image demo_block, ixj, iyj) /\
    boxes_apart (block_boxes demo_block txi tyi ixi iyi) (block_boxes demo_block txj tyj ixj iyj).
Proof.
  exact (compose_grid_blocks_apart demo_blocks3 demo_canvas3
           ltac:(intros b [<- | [<- | [<- | []]]]; vm_compute; repeat split; discriminate)
           ltac:(vm_compute; reflexivity) 0 2 demo_block demo_block
           ltac:(discriminate) eq_refl eq_refl).
Defined.

(** X13: [render_text_image] strips its text itself, so stripping the text
    before calling it, as [combine_images] does, gives the same caption. *)
Theorem render_text_image_strip (e : Env) (t : list ascii) (font : Font) :
  render_text_image e (strip t) font = render_text_image e t font.
Proof. unfold render_text_image. rewrite strip_idem. reflexivity. Qed.
